(** * AI-Image-Cleanup: chroma-key alpha extraction and linear edit history

    A shallow embedding of the core of [src/App.tsx]:
    - [rgbToHsl], the RGB to HSL conversion, on IEEE 754 binary64 numbers
      (the JavaScript [number] type), modelled with Rocq's primitive floats;
    - the pixel loop of [makeMagentaTransparent], on the flat RGBA byte
      array of a canvas [ImageData];
    - the edit history kept in the React state of [App]
      ([history], [historyIndex]) and its handlers. *)

From Stdlib Require Import ZArith List Bool Lia.
From Stdlib Require Import Floats.PrimFloat.
From stdpp Require Import base list strings.
Import ListNotations.

Local Open Scope Z_scope.

(** ** JavaScript numbers *)

Module JS.

(** An integer as a [number]; exact for every integer below [2^53] in
    absolute value, so for every byte. *)
Fixpoint pos_to_number (p : positive) : float :=
  match p with
  | xH => 1
  | xO q => 2 * pos_to_number q
  | xI q => 2 * pos_to_number q + 1
  end%float.

Definition number_of_Z (z : Z) : float :=
  match z with
  | Z0 => 0%float
  | Zpos p => pos_to_number p
  | Zneg p => (- pos_to_number p)%float
  end.

(** Reading an array element that may be out of range: [undefined]
    becomes [NaN] as soon as arithmetic touches it. *)
Definition number_of_read (o : option Z) : float :=
  match o with
  | Some z => number_of_Z z
  | None => nan
  end.

(** [Math.max] and [Math.min] on two arguments: [NaN] is contagious and
    [+0] counts as larger than [-0]. *)
Definition max2 (x y : float) : float :=
  if is_nan x || is_nan y then nan
  else if (x <? y)%float then y
  else if (y <? x)%float then x
  else if get_sign x then y else x.

Definition min2 (x y : float) : float :=
  if is_nan x || is_nan y then nan
  else if (x <? y)%float then x
  else if (y <? x)%float then y
  else if get_sign x then x else y.

Definition Math_max (x y z : float) : float := max2 (max2 x y) z.
Definition Math_min (x y z : float) : float := min2 (min2 x y) z.
Definition Math_abs (x : float) : float := abs x.

End JS.

(** ** ColorSpace: [rgbToHsl] *)

Section ColorSpace.
Local Open Scope float_scope.

(** The three-way [switch (max)] of the source: the cases are tried in
    the order [r], [g], [b] with strict equality, and [h] keeps its
    initial value [0] when none applies. *)
Definition hueSector (r g b max d : float) : float :=
  if max =? r then (g - b) / d + (if g <? b then 6 else 0)
  else if max =? g then (b - r) / d + 2
  else if max =? b then (r - g) / d + 4
  else 0.

Definition rgbToHsl (r g b : float) : float * float * float :=
  let r := r / 255 in
  let g := g / 255 in
  let b := b / 255 in
  let max := JS.Math_max r g b in
  let min := JS.Math_min r g b in
  let l := (max + min) / 2 in
  if negb (max =? min) then
    let d := max - min in
    let s := if 0.5 <? l then d / (2 - max - min) else d / (max + min) in
    let h := hueSector r g b max d in
    let h := h / 6 in
    (h * 360, s, l)
  else (0 * 360, 0, l).

End ColorSpace.

(** *** The conversion on pixel bytes *)

(** A colour channel of a pixel: an integer from 0 to 255. *)
Definition channel (z : Z) : Prop := 0 <= z <= 255.

Definition bytes : list Z := map Z.of_nat (seq 0 256).

(** [rgbToHsl] on the three colour bytes of a pixel. *)
Definition pixelHsl (r g b : Z) : float * float * float :=
  rgbToHsl (JS.number_of_Z r) (JS.number_of_Z g) (JS.number_of_Z b).

(** A byte scaled to the unit interval, as the first three assignments of
    [rgbToHsl] do. *)
Definition unit_of_byte (z : Z) : float := (JS.number_of_Z z / 255)%float.

(** The 256 scaled channel values, tabulated. *)
Definition units : list float := Eval vm_compute in map unit_of_byte bytes.

(** The hue that [rgbToHsl] returns, as a function of the three scaled
    channels. *)
Definition hueOfUnits (r g b : float) : float :=
  let max := JS.Math_max r g b in
  let min := JS.Math_min r g b in
  (if negb (max =? min) then hueSector r g b max (max - min) / 6 * 360
   else 0 * 360)%float.

Definition hue_in_range (h : float) : bool := ((0 <=? h) && (h <? 360))%float.

(** [forallb] over all triples of elements of a list. *)
Definition forallb3 {A} (f : A -> A -> A -> bool) (l : list A) : bool :=
  forallb (fun x => forallb (fun y => forallb (fun z => f x y z) l) l) l.

(** The hue of the pixel with the given scaled channels lies in
    [[0, 360)]; [forallb3 hueCheck units] is the exhaustive check over all
    [256 * 256 * 256] pixels. *)
Definition hueCheck (r g b : float) : bool := hue_in_range (hueOfUnits r g b).

(** ** ChromaKeyMatcher *)

(** The thresholds that [makeMagentaTransparent] declares before its loop
    ([magentaHue], [hueTolerance], [minSaturation], [minLightness],
    [maxLightness]), gathered in one record. *)
Record ChromaKeyConfig := {
  referenceHue : float;
  hueTolerance : float;
  minSaturation : float;
  minLightness : float;
  maxLightness : float
}.

Definition magentaKey : ChromaKeyConfig := {|
  referenceHue := 300;
  hueTolerance := 25;
  minSaturation := 0.25;
  minLightness := 0x1.3333333333333p-3;  (* 0.15 *)
  maxLightness := 0x1.e666666666666p-1   (* 0.95 *)
|}.

Section ChromaKeyMatcher.
Local Open Scope float_scope.
Variable cfg : ChromaKeyConfig.

(** The shortest distance on the colour wheel. *)
Definition hueDistance (h : float) : float :=
  let hueDiff := JS.Math_abs (h - referenceHue cfg) in
  JS.min2 hueDiff (360 - hueDiff).

(** The condition of the [if] inside the loop, on an HSL triple. *)
Definition matchesKey (hsl : float * float * float) : bool :=
  let '(h, s, l) := hsl in
  (hueDistance h <=? hueTolerance cfg)
  && (minSaturation cfg <=? s)
  && (minLightness cfg <=? l)
  && (l <=? maxLightness cfg).

Definition isBackground (r g b : float) : bool :=
  matchesKey (rgbToHsl r g b).

End ChromaKeyMatcher.

(** ** AlphaCompositor: the pixel loop of [makeMagentaTransparent] *)

Section PixelLoop.
Variable cfg : ChromaKeyConfig.

(** One iteration of the loop body at index [i] of the byte array
    [data]. A write past the end of a typed array is ignored, as is
    stdpp's list insert. *)
Definition keyStep (data : list Z) (i : nat) : list Z :=
  let r := JS.number_of_read (data !! i) in
  let g := JS.number_of_read (data !! (i + 1)%nat) in
  let b := JS.number_of_read (data !! (i + 2)%nat) in
  if isBackground cfg r g b then <[(i + 3)%nat := 0]> data else data.

(** [for (let i = 0; i < data.length; i += 4)], with the number of
    iterations still allowed as fuel. *)
Fixpoint pixelLoop (fuel : nat) (i : nat) (data : list Z) : list Z :=
  match fuel with
  | O => data
  | S fuel' =>
      if bool_decide (i < length data)%nat
      then pixelLoop fuel' (i + 4)%nat (keyStep data i)
      else data
  end.

(** The loop never needs more iterations than there are bytes. *)
Definition keyPixels (data : list Z) : list Z :=
  pixelLoop (length data) 0%nat data.

(** The classification of a pixel from its three colour bytes. *)
Definition isBackgroundPixel (r g b : Z) : bool :=
  isBackground cfg (JS.number_of_Z r) (JS.number_of_Z g) (JS.number_of_Z b).

(** What section 4.3 of the specification asks of the pass, pixel by
    pixel: the alpha of a background pixel becomes 0, nothing else
    changes. *)
Fixpoint ApplyChromaKey (data : list Z) : list Z :=
  match data with
  | r :: g :: b :: a :: rest =>
      r :: g :: b :: (if isBackgroundPixel r g b then 0 else a)
        :: ApplyChromaKey rest
  | _ => data
  end.

End PixelLoop.

(** ** The browser side of [makeMagentaTransparent] *)

(** A canvas [ImageData]: the size and the flat RGBA byte array. *)
Record ImageData := {
  img_width : nat;
  img_height : nat;
  img_data : list Z
}.

(** A thrown value: an [Error] with its message, or anything else. *)
Inductive Thrown :=
| ThrownError (message : string)
| ThrownOther.

(** What the browser does for [makeMagentaTransparent]: decoding the
    image of a data URL onto a canvas ([None] is the [onerror] event),
    giving a 2D context or not, and encoding the canvas as a PNG data
    URL, whose text after the scheme is [pngBody]. *)
Record Browser := {
  decodeImage : string -> option ImageData;
  hasContext2d : bool;
  pngBody : ImageData -> string
}.

Definition toDataURL (br : Browser) (img : ImageData) : string :=
  ("data:" ++ pngBody br img)%string.

(** The two ways in which the promise of [makeMagentaTransparent]
    settles: rejected from [onerror] or for want of a 2D context, or
    resolved with the encoded canvas. An exception inside [onload] after
    the context check (as [getImageData] raises on an empty canvas) is
    caught by nobody: the promise then stays pending and [handleGenerate]
    never gets past its [await], so there is no outcome to give here. *)
Definition makeMagentaTransparent (br : Browser) (sourceImageSrc : string)
  : Thrown + string :=
  match decodeImage br sourceImageSrc with
  | None =>
      inl (ThrownError "Failed to load image for magenta removal: [object Event]")
  | Some img =>
      if negb (hasContext2d br)
      then inl (ThrownError "Could not get canvas context")
      else
        let data := keyPixels magentaKey (img_data img) in
        inr (toDataURL br {| img_width := img_width img;
                             img_height := img_height img;
                             img_data := data |})
  end.

(** ** EditHistory: the React state of [App] and its handlers *)

Module JSArray.

(** [arr[i]] for an integer [i]: [undefined] outside the array. *)
Definition get {A} (arr : list A) (i : Z) : option A :=
  if i <? 0 then None else arr !! Z.to_nat i.

(** [arr.slice(0, e)]: a negative [e] counts from the end. *)
Definition slice0 {A} (arr : list A) (e : Z) : list A :=
  let len := Z.of_nat (length arr) in
  let k := if e <? 0 then Z.max (len + e) 0 else Z.min e len in
  take (Z.to_nat k) arr.

(** [arr.push(x)] on a fresh array. *)
Definition push {A} (arr : list A) (x : A) : list A := arr ++ [x].

End JSArray.

(** A string is truthy when it is not empty. *)
Definition truthy (s : string) : bool :=
  match s with
  | EmptyString => false
  | String _ _ => true
  end.

Record File := { file_type : string }.

Record AppState := {
  originalFile : option File;
  history : list string;
  historyIndex : Z;
  isLoading : bool;
  error : option string
}.

Definition initialState : AppState := {|
  originalFile := None;
  history := [];
  historyIndex := -1;
  isLoading := false;
  error := None
|}.

Definition setError (e : option string) (st : AppState) : AppState :=
  {| originalFile := originalFile st; history := history st;
     historyIndex := historyIndex st; isLoading := isLoading st;
     error := e |}.

Definition setHistoryIndex (i : Z) (st : AppState) : AppState :=
  {| originalFile := originalFile st; history := history st;
     historyIndex := i; isLoading := isLoading st;
     error := error st |}.

Definition setHistory (h : list string) (st : AppState) : AppState :=
  {| originalFile := originalFile st; history := h;
     historyIndex := historyIndex st; isLoading := isLoading st;
     error := error st |}.

Definition setIsLoading (b : bool) (st : AppState) : AppState :=
  {| originalFile := originalFile st; history := history st;
     historyIndex := historyIndex st; isLoading := b;
     error := error st |}.

Definition setOriginalFile (f : option File) (st : AppState) : AppState :=
  {| originalFile := f; history := history st;
     historyIndex := historyIndex st; isLoading := isLoading st;
     error := error st |}.

(** [history[historyIndex] ?? null] *)
Definition currentImageSrc (st : AppState) : option string :=
  JSArray.get (history st) (historyIndex st).

Definition handleReset (st : AppState) : AppState :=
  setError None (setHistoryIndex (-1) (setHistory [] (setOriginalFile None st))).

(** What the [FileReader] reports: [onload] with its result, which may be
    missing, or [onerror]. *)
Inductive ReaderEvent :=
| ReaderLoad (result : option string)
| ReaderError.

Definition processFile (file : File) (ev : ReaderEvent) (st : AppState)
  : AppState :=
  if String.prefix "image/" (file_type file) then
    match ev with
    | ReaderLoad (Some base64String) =>
        if truthy base64String then
          setError None
            (setHistoryIndex 0
               (setHistory [base64String]
                  (setOriginalFile (Some file) (handleReset st))))
        else setError (Some "Could not read the uploaded file.") st
    | ReaderLoad None => setError (Some "Could not read the uploaded file.") st
    | ReaderError => setError (Some "Failed to read the image file.") st
    end
  else setError (Some "Please upload a valid image file (PNG, JPG, etc.).") st.

Definition handleUndo (st : AppState) : AppState :=
  if 0 <? historyIndex st
  then setHistoryIndex (historyIndex st - 1) st
  else st.

Definition handleRedo (st : AppState) : AppState :=
  if historyIndex st <? Z.of_nat (length (history st)) - 1
  then setHistoryIndex (historyIndex st + 1) st
  else st.

Definition isUndoable (st : AppState) : bool := 0 <? historyIndex st.
Definition isRedoable (st : AppState) : bool :=
  historyIndex st <? Z.of_nat (length (history st)) - 1.
Definition canDownload (st : AppState) : bool := 0 <? historyIndex st.

(** The part of the model's answer that [handleGenerate] looks at. *)
Record InlineData := {
  inline_data : string;
  inline_mimeType : string
}.

(** The outcome of [ai.models.generateContent]: the call throws, or it
    answers and [parts.find(p => p.inlineData)] finds an image part or
    nothing. The request itself (the current image and the prompt) only
    travels to the model, so every answer is allowed for every request. *)
Inductive ModelReply :=
| ReplyThrows (e : Thrown)
| ReplyParts (imagePartFound : option InlineData).

Definition errorMessage (e : Thrown) : string :=
  match e with
  | ThrownError m => m
  | ThrownOther => "An unknown error occurred."
  end.

Definition isBgRemoval (actionName : string) : bool :=
  String.eqb actionName "배경 제거".

(** The body of the [try] block up to [finalImageSrc]: either that image
    or the value thrown on the way. *)
Definition finalImageSrc (br : Browser) (actionName : string)
    (reply : ModelReply) : Thrown + string :=
  match reply with
  | ReplyThrows e => inl e
  | ReplyParts None =>
      inl (ThrownError "AI did not return a valid image. Please try again.")
  | ReplyParts (Some part) =>
      let aiResultImageSrc :=
        ("data:" ++ inline_mimeType part ++ ";base64," ++ inline_data part)%string in
      if isBgRemoval actionName
      then makeMagentaTransparent br aiResultImageSrc
      else inr aiResultImageSrc
  end.

(** Lines 233 to 236: truncate after the cursor, push, move the cursor. *)
Definition appendSnapshot (img : string) (st : AppState) : AppState :=
  let newHistory := JSArray.push (JSArray.slice0 (history st) (historyIndex st + 1)) img in
  setHistoryIndex (Z.of_nat (length newHistory) - 1) (setHistory newHistory st).

(** [handleGenerate] run to its end: the state it leaves once the model
    call and the post-processing have settled. *)
Definition handleGenerate (br : Browser) (reply : ModelReply)
    (prompt actionName : string) (st : AppState) : AppState :=
  match currentImageSrc st with
  | None => setError (Some "Please upload an image first.") st
  | Some currentImage =>
      if negb (truthy currentImage)
      then setError (Some "Please upload an image first.") st
      else
        let st := setError None (setIsLoading true st) in
        let st :=
          match finalImageSrc br actionName reply with
          | inr img => appendSnapshot img st
          | inl e =>
              setError (Some ("작업에 실패했습니다: " ++ errorMessage e)%string) st
          end in
        setIsLoading false st
  end.

(** ** Well-formed history states *)

(** The cursor invariant of the data model. *)
Definition history_inv (st : AppState) : Prop :=
  -1 <= historyIndex st < Z.of_nat (length (history st))
  /\ (historyIndex st = -1 <-> length (history st) = 0%nat).

(** Every stored snapshot is a non-empty string. *)
Definition snapshots_ok (st : AppState) : Prop :=
  Forall (fun s => truthy s = true) (history st).

Definition wf_state (st : AppState) : Prop :=
  history_inv st /\ snapshots_ok st.

#[global] Instance history_inv_dec st : Decision (history_inv st).
Proof. unfold history_inv. apply _. Defined.

#[global] Instance snapshots_ok_dec st : Decision (snapshots_ok st).
Proof. unfold snapshots_ok. apply _. Defined.

#[global] Instance wf_state_dec st : Decision (wf_state st).
Proof. unfold wf_state. apply _. Defined.

(** The user's actions on the history, and the states they can reach. *)
Inductive Action :=
| ActReset
| ActLoad (file : File) (ev : ReaderEvent)
| ActGenerate (br : Browser) (reply : ModelReply) (prompt actionName : string)
| ActUndo
| ActRedo.

Definition perform (a : Action) (st : AppState) : AppState :=
  match a with
  | ActReset => handleReset st
  | ActLoad file ev => processFile file ev st
  | ActGenerate br reply prompt actionName =>
      handleGenerate br reply prompt actionName st
  | ActUndo => handleUndo st
  | ActRedo => handleRedo st
  end.

Definition run (acts : list Action) (st : AppState) : AppState :=
  fold_left (fun s a => perform a s) acts st.

Inductive reachable : AppState -> Prop :=
| reach_init : reachable initialState
| reach_step a st : reachable st -> reachable (perform a st).

(** An action that is a generation whose [try] block produces [img]. *)
Definition produces (a : Action) (img : string) : Prop :=
  match a with
  | ActGenerate br reply _ actionName =>
      finalImageSrc br actionName reply = inr img
  | _ => False
  end.

(** Two states that differ at most in the cursor. *)
Definition same_but_cursor (st st' : AppState) : Prop :=
  originalFile st' = originalFile st /\ history st' = history st
  /\ isLoading st' = isLoading st /\ error st' = error st.

(** ** Sample data *)

Module Sample.

Definition pngFile : File := {| file_type := "image/png" |}.

(** A key around red, reference hue 5 with tolerance 15, to show the
    wraparound of the hue distance. *)
Definition redKey : ChromaKeyConfig :=
  {| referenceHue := 5;
     hueTolerance := 15;
     minSaturation := 0.25;
     minLightness := 0x1.3333333333333p-3;
     maxLightness := 0x1.e666666666666p-1 |}.

Definition snapA : string := "data:image/png;base64,AAAA".

Definition part (payload : string) : InlineData :=
  {| inline_data := payload; inline_mimeType := "image/png" |}.

(** A browser that decodes every source to the same two pixels, a pure
    magenta one and a dark blue one, and names the PNG it encodes after
    the alpha bytes it finds. *)
Definition twoPixels : ImageData :=
  {| img_width := 2; img_height := 1;
     img_data := [255; 0; 255; 255; 10; 20; 30; 255] |}.

Definition browser : Browser :=
  {| decodeImage := fun _ => Some twoPixels;
     hasContext2d := true;
     pngBody := fun img =>
       if bool_decide (img_data img = [255; 0; 255; 0; 10; 20; 30; 255])
       then "image/png;base64,KEYED"
       else "image/png;base64,OTHER" |}.

Definition retouch (payload : string) : Action :=
  ActGenerate browser (ReplyParts (Some (part payload)))
    "remove the dust" "먼지 제거".

Definition removeBackground (payload : string) : Action :=
  ActGenerate browser (ReplyParts (Some (part payload)))
    "replace the background" "배경 제거".

Definition failing : Action :=
  ActGenerate browser (ReplyThrows (ThrownError "503")) "remove the dust" "먼지 제거".

Definition loaded : AppState :=
  perform (ActLoad pngFile (ReaderLoad (Some snapA))) initialState.

Definition edited : AppState :=
  run [retouch "BBBB"; retouch "CCCC"] loaded.

End Sample.

(** ** The controls of the page *)

(** The truthiness of [currentImageSrc], which is [null] or a string. *)
Definition shown (o : option string) : bool :=
  match o with
  | Some s => truthy s
  | None => false
  end.

(** [disabled={!currentImageSrc || isLoading}] on the two edit buttons. *)
Definition generateDisabled (st : AppState) : bool :=
  negb (shown (currentImageSrc st)) || isLoading st.

(** The actions of an editing session on a loaded image: generation,
    undo and redo. *)
Definition isEdit (a : Action) : bool :=
  match a with
  | ActGenerate _ _ _ _ | ActUndo | ActRedo => true
  | ActReset | ActLoad _ _ => false
  end.

(** ** The image part of the request *)

(** Lines 200 to 202 of [handleGenerate] take the current data URL apart
    to build the [inlineData] sent to the model. Strings are read as
    their UTF-8 bytes; the separators involved are ASCII, so cutting at
    bytes and cutting at UTF-16 code units agree. *)
Module Request.
Import Stdlib.Strings.Ascii.
Local Open Scope char_scope.

(** [s.split(sep)] for a one-character separator: never empty. *)
Fixpoint split (sep : ascii) (s : string) : list string :=
  match s with
  | EmptyString => [EmptyString]
  | String c rest =>
      if Ascii.eqb c sep then EmptyString :: split sep rest
      else
        match split sep rest with
        | piece :: pieces => String c piece :: pieces
        | [] => [String c EmptyString]
        end
  end.

(** A line terminator starts here: LF, CR, or U+2028 / U+2029, which are
    the bytes E2 80 A8 and E2 80 A9. The [.] of a regular expression
    matches every character but these. *)
Definition lineTerminatorAt (s : string) : bool :=
  match s with
  | EmptyString => false
  | String c rest =>
      Ascii.eqb c "010" || Ascii.eqb c "013"
      || (Ascii.eqb c "226"
          && match rest with
             | String c1 (String c2 _) =>
                 Ascii.eqb c1 "128" && (Ascii.eqb c2 "168" || Ascii.eqb c2 "169")
             | _ => false
             end)
  end.

(** [(.*?);] from the start of [s]: the shortest run of characters up to
    the first semicolon, when no line terminator comes before it. *)
Fixpoint lazyToSemicolon (s : string) : option string :=
  match s with
  | EmptyString => None
  | String c rest =>
      if Ascii.eqb c ";" then Some EmptyString
      else if lineTerminatorAt s then None
      else option_map (String c) (lazyToSemicolon rest)
  end.

(** [header.match(/:(.*?);/)?.[1]]: the capture of the leftmost match. *)
Fixpoint matchMime (header : string) : option string :=
  match header with
  | EmptyString => None
  | String c rest =>
      if Ascii.eqb c ":" then
        match lazyToSemicolon rest with
        | Some captured => Some captured
        | None => matchMime rest
        end
      else matchMime rest
  end.

(** [{ inlineData: { data, mimeType } }]; [data] is [undefined] when the
    data URL holds no comma. *)
Record ImagePart := {
  part_data : option string;
  part_mimeType : string
}.

Definition imagePart (currentImage : string) : ImagePart :=
  let pieces := split "," currentImage in
  let header := match pieces with h :: _ => h | [] => EmptyString end in
  let data := pieces !! 1%nat in
  let mimeType :=
    match matchMime header with
    | Some m => if truthy m then m else "image/png"%string
    | None => "image/png"%string
    end in
  {| part_data := data; part_mimeType := mimeType |}.

(** No character of [s] is [c]. *)
Fixpoint lacks (c : ascii) (s : string) : bool :=
  match s with
  | EmptyString => true
  | String c' rest => negb (Ascii.eqb c' c) && lacks c rest
  end.

(** A MIME type that survives the round trip: not empty, without comma,
    semicolon or line terminator. *)
Fixpoint plain (s : string) : bool :=
  match s with
  | EmptyString => true
  | String c rest =>
      negb (Ascii.eqb c ",") && negb (Ascii.eqb c ";")
      && negb (lineTerminatorAt s) && plain rest
  end.

Definition mimeOk (m : string) : bool := truthy m && plain m.

End Request.

(** ** Keyed images *)

(** Every complete pixel of [data] that the key classifies as background
    already has alpha 0. *)
Fixpoint backgroundCleared (cfg : ChromaKeyConfig) (data : list Z) : bool :=
  match data with
  | r :: g :: b :: a :: rest =>
      (negb (isBackgroundPixel cfg r g b) || (a =? 0))
      && backgroundCleared cfg rest
  | _ => true
  end.

Module Demo.

Definition keyedTwoPixels : ImageData :=
  {| img_width := 2; img_height := 1;
     img_data := [255; 0; 255; 0; 10; 20; 30; 255] |}.

End Demo.

(** ** Lightness and saturation from the extreme channels *)

Definition maxByte (r g b : Z) : Z := Z.max (Z.max r g) b.
Definition minByte (r g b : Z) : Z := Z.min (Z.min r g) b.

(** The lightness and the saturation of [rgbToHsl], as functions of the
    scaled maximum and minimum. *)
Definition lightnessOf (max min : float) : float := ((max + min) / 2)%float.

Definition saturationOf (max min : float) : float :=
  (let d := max - min in
   if 0.5 <? lightnessOf max min then d / (2 - max - min) else d / (max + min))%float.

(** [forallb] over all pairs of elements of a list. *)
Definition forallb2 {A} (f : A -> A -> bool) (l : list A) : bool :=
  forallb (fun x => forallb (fun y => f x y) l) l.

(** Scaling keeps the order and the distinctness of bytes. *)
Definition orderCheck (i j : Z) : bool :=
  Bool.eqb (unit_of_byte i <? unit_of_byte j)%float (i <? j)
  && Bool.eqb (unit_of_byte i =? unit_of_byte j)%float (i =? j).

Definition signCheck (i : Z) : bool := negb (get_sign (unit_of_byte i)).

(** For a largest byte [M] and a smallest byte [m]: lightness lies in
    [[0, 1]], exceeds 0.5 exactly when [M + m > 255], equals the scaled
    byte of a grey, and the saturation of a colour lies in [(0, 1]]. *)
Definition rangeCheck (M m : Z) : bool :=
  negb (m <=? M)
  || (let l := lightnessOf (unit_of_byte M) (unit_of_byte m) in
      let s := saturationOf (unit_of_byte M) (unit_of_byte m) in
      (0 <=? l)%float && (l <=? 1)%float
      && Bool.eqb (0.5 <? l)%float (255 <? M + m)
      && (negb (M =? m) || (l =? unit_of_byte M)%float)
      && (negb (m <? M)
          || ((0 <? s)%float && (0 <=? s)%float && (s <=? 1)%float))).

(** The lightness and saturation tests of the magenta key against their
    exact counterparts on the bytes. *)
Definition exactSaturationFloor (strict : bool) (M m : Z) : bool :=
  if 255 <? M + m
  then (if strict then 510 <? 5 * M - 3 * m else 510 <=? 5 * M - 3 * m)
  else (if strict then 5 * m <? 3 * M else 5 * m <=? 3 * M).

Definition magentaGateCheck (M m : Z) : bool :=
  negb (m <=? M)
  || (let l := lightnessOf (unit_of_byte M) (unit_of_byte m) in
      let s := saturationOf (unit_of_byte M) (unit_of_byte m) in
      Bool.eqb ((minLightness magentaKey <=? l)%float
                && (l <=? maxLightness magentaKey)%float)
               ((77 <=? M + m) && (M + m <=? 484))
      && (negb (m <? M)
          || (implb (minSaturation magentaKey <=? s)%float
                    (exactSaturationFloor false M m)
              && implb (exactSaturationFloor true M m)
                       (minSaturation magentaKey <=? s)%float))).

(** ** Whole-degree hues *)

Definition degrees : list Z := map Z.of_nat (seq 0 360).

(** The length of the shorter arc between two whole-degree hues. *)
Definition arc (h ref : Z) : Z := Z.min (Z.abs (h - ref)) (360 - Z.abs (h - ref)).

Definition keyAt (ref : Z) : ChromaKeyConfig :=
  {| referenceHue := JS.number_of_Z ref;
     hueTolerance := hueTolerance magentaKey;
     minSaturation := minSaturation magentaKey;
     minLightness := minLightness magentaKey;
     maxLightness := maxLightness magentaKey |}.

Definition arcCheck (h ref : Z) : bool :=
  (hueDistance (keyAt ref) (JS.number_of_Z h) =? JS.number_of_Z (arc h ref))%float.

Definition magentaWindowCheck (h : Z) : bool :=
  Bool.eqb (hueDistance magentaKey (JS.number_of_Z h) <=? hueTolerance magentaKey)%float
           ((275 <=? h) && (h <=? 325)).

(** * Properties of the edit history *)

Section HistoryFacts.
Implicit Types (st : AppState) (img : string).

Lemma get_in_range {A} (arr : list A) (i : Z) :
  0 <= i < Z.of_nat (length arr) ->
  exists x, JSArray.get arr i = Some x /\ arr !! Z.to_nat i = Some x.
Proof.
  intros Hi. unfold JSArray.get.
  destruct (Z.ltb_spec i 0) as [?|_]; [lia|].
  destruct (lookup_lt_is_Some_2 arr (Z.to_nat i)) as [x Hx]; [lia|].
  exists x. by rewrite Hx.
Qed.

Lemma get_negative {A} (arr : list A) (i : Z) :
  i < 0 -> JSArray.get arr i = None.
Proof.
  intros Hi. unfold JSArray.get.
  by destruct (Z.ltb_spec i 0) as [_|?]; [|lia].
Qed.

Lemma get_Some_range {A} (arr : list A) (i : Z) (x : A) :
  JSArray.get arr i = Some x -> 0 <= i < Z.of_nat (length arr).
Proof.
  unfold JSArray.get. destruct (Z.ltb_spec i 0) as [?|?]; [done|].
  intros Hx%lookup_lt_Some. lia.
Qed.

Lemma slice0_take {A} (arr : list A) (e : Z) :
  0 <= e -> JSArray.slice0 arr e = take (Z.to_nat e) arr.
Proof.
  intros He. unfold JSArray.slice0.
  destruct (Z.ltb_spec e 0) as [?|_]; [lia|].
  destruct (Z.le_gt_cases e (Z.of_nat (length arr))).
  - by rewrite Z.min_l.
  - rewrite Z.min_r by lia. rewrite Nat2Z.id.
    rewrite !take_ge; [done|lia..].
Qed.

Lemma current_of_wf st :
  wf_state st -> 0 <= historyIndex st ->
  exists cur, currentImageSrc st = Some cur /\ truthy cur = true.
Proof.
  intros [[Hr _] Hok] Hi.
  destruct (get_in_range (history st) (historyIndex st)) as (cur & Hg & Hl);
    [lia|].
  exists cur. split; [done|].
  unfold snapshots_ok in Hok. rewrite Forall_lookup in Hok. by eapply Hok.
Qed.

(** A produced image is a data URL, hence never the empty string. *)
Lemma finalImageSrc_truthy br actionName reply img :
  finalImageSrc br actionName reply = inr img -> truthy img = true.
Proof.
  unfold finalImageSrc, makeMagentaTransparent, toDataURL.
  destruct reply as [e|[part|]]; [done| |done].
  destruct (isBgRemoval actionName).
  - destruct (decodeImage br _); [|done].
    destruct (hasContext2d br); [|done].
    cbn. by intros [= <-].
  - by intros [= <-].
Qed.

(** Past its guard, [handleGenerate] is decided by the produced image. *)
Lemma handleGenerate_guarded br reply prompt actionName st cur :
  currentImageSrc st = Some cur -> truthy cur = true ->
  handleGenerate br reply prompt actionName st =
    setIsLoading false
      match finalImageSrc br actionName reply with
      | inr img => appendSnapshot img (setError None (setIsLoading true st))
      | inl e =>
          setError (Some ("작업에 실패했습니다: " ++ errorMessage e)%string)
            (setError None (setIsLoading true st))
      end.
Proof. intros Hc Ht. unfold handleGenerate. by rewrite Hc, Ht. Qed.

Lemma handleGenerate_refused br reply prompt actionName st :
  (currentImageSrc st = None
   \/ exists cur, currentImageSrc st = Some cur /\ truthy cur = false) ->
  handleGenerate br reply prompt actionName st =
    setError (Some "Please upload an image first.") st.
Proof.
  intros [Hc|(cur & Hc & Ht)]; unfold handleGenerate; by rewrite Hc, ?Ht.
Qed.

Lemma appendSnapshot_history img st :
  0 <= historyIndex st ->
  history (appendSnapshot img st) =
    take (Z.to_nat (historyIndex st + 1)) (history st) ++ [img].
Proof.
  intros Hi. unfold appendSnapshot, JSArray.push. cbn.
  by rewrite slice0_take by lia.
Qed.

Lemma appendSnapshot_index img st :
  historyIndex (appendSnapshot img st) =
    Z.of_nat (length (history (appendSnapshot img st))) - 1.
Proof. reflexivity. Qed.

Lemma appendSnapshot_length img st :
  0 <= historyIndex st < Z.of_nat (length (history st)) ->
  Z.of_nat (length (history (appendSnapshot img st))) = historyIndex st + 2.
Proof.
  intros Hi. rewrite appendSnapshot_history by lia.
  rewrite length_app, length_take. cbn. lia.
Qed.

(** A successful generation from a well-formed state, field by field. *)
Lemma handleGenerate_success br reply prompt actionName st img :
  wf_state st -> 0 <= historyIndex st ->
  finalImageSrc br actionName reply = inr img ->
  handleGenerate br reply prompt actionName st =
    {| originalFile := originalFile st;
       history := take (Z.to_nat (historyIndex st + 1)) (history st) ++ [img];
       historyIndex := historyIndex st + 1;
       isLoading := false;
       error := None |}.
Proof.
  intros Hwf Hi Hf.
  destruct (current_of_wf st Hwf Hi) as (cur & Hc & Ht).
  rewrite (handleGenerate_guarded _ _ _ _ _ _ Hc Ht), Hf.
  destruct Hwf as [[Hr _] _].
  unfold appendSnapshot, JSArray.push, setIsLoading, setError, setHistoryIndex,
    setHistory. cbn [originalFile history historyIndex isLoading error].
  rewrite slice0_take by lia.
  f_equal. rewrite length_app, length_take. cbn [length]. lia.
Qed.

(** Whatever happens, [handleGenerate] either leaves the history alone
    or appends one produced image right after the cursor. *)
Lemma handleGenerate_cases br reply prompt actionName st :
  let st' := handleGenerate br reply prompt actionName st in
  (history st' = history st /\ historyIndex st' = historyIndex st
   /\ exists msg, error st' = Some msg)
  \/ (exists img,
        finalImageSrc br actionName reply = inr img
        /\ 0 <= historyIndex st < Z.of_nat (length (history st))
        /\ history st' = take (Z.to_nat (historyIndex st + 1)) (history st) ++ [img]
        /\ historyIndex st' = historyIndex st + 1
        /\ error st' = None).
Proof.
  cbn zeta. unfold handleGenerate.
  destruct (currentImageSrc st) as [cur|] eqn:Hc; [|left; cbn; eauto].
  destruct (truthy cur) eqn:Ht; cbn [negb]; [|left; cbn; eauto].
  apply get_Some_range in Hc.
  destruct (finalImageSrc br actionName reply) as [e|img] eqn:Hf;
    [left; cbn; eauto|].
  right. exists img. split; [done|]. split; [done|].
  unfold appendSnapshot, JSArray.push, setIsLoading, setError, setHistoryIndex,
    setHistory. cbn [originalFile history historyIndex isLoading error].
  rewrite slice0_take by lia.
  split; [done|]. split; [|done].
  rewrite length_app, length_take. cbn [length]. lia.
Qed.

Lemma processFile_cases file ev st :
  let st' := processFile file ev st in
  (history st' = history st /\ historyIndex st' = historyIndex st
   /\ exists msg, error st' = Some msg)
  \/ (exists img,
        ev = ReaderLoad (Some img) /\ truthy img = true
        /\ String.prefix "image/" (file_type file) = true
        /\ history st' = [img] /\ historyIndex st' = 0 /\ error st' = None).
Proof.
  cbn zeta. unfold processFile.
  destruct (String.prefix _ _); [|left; cbn; eauto].
  destruct ev as [[img|]|]; [|left; cbn; eauto..].
  destruct (truthy img) eqn:Ht; [|left; cbn; eauto].
  right. exists img. by cbn.
Qed.

Lemma history_inv_perform a st : history_inv st -> history_inv (perform a st).
Proof.
  unfold history_inv. intros [Hr Hiff].
  destruct a as [|file ev|br reply prompt actionName| |]; cbn [perform].
  - cbn. split; [lia|done].
  - destruct (processFile_cases file ev st)
      as [(-> & -> & _)|(img & _ & _ & _ & -> & -> & _)]; [done|].
    cbn. split; lia.
  - destruct (handleGenerate_cases br reply prompt actionName st)
      as [(-> & -> & _)|(img & _ & Hi & -> & -> & _)]; [done|].
    rewrite length_app, length_take. cbn [length]. split; lia.
  - unfold handleUndo. destruct (Z.ltb_spec 0 (historyIndex st)); [|done].
    cbn. split; lia.
  - unfold handleRedo.
    destruct (Z.ltb_spec (historyIndex st) (Z.of_nat (length (history st)) - 1));
      [|done].
    cbn. split; lia.
Qed.

Lemma snapshots_ok_perform a st : snapshots_ok st -> snapshots_ok (perform a st).
Proof.
  unfold snapshots_ok. intros Hok.
  destruct a as [|file ev|br reply prompt actionName| |]; cbn [perform].
  - by cbn.
  - destruct (processFile_cases file ev st)
      as [(-> & _)|(img & _ & Ht & _ & -> & _)]; [done|].
    by repeat constructor.
  - destruct (handleGenerate_cases br reply prompt actionName st)
      as [(-> & _)|(img & Hf & _ & -> & _)]; [done|].
    apply Forall_app. split; [by apply Forall_take|].
    repeat constructor. by eapply finalImageSrc_truthy.
  - unfold handleUndo. by destruct (0 <? historyIndex st).
  - unfold handleRedo. by destruct (_ <? _).
Qed.

Lemma wf_initial : wf_state initialState.
Proof.
  split; [|by constructor]. unfold history_inv, initialState.
  cbn [history historyIndex length]. split; [lia|done].
Qed.

Lemma wf_perform a st : wf_state st -> wf_state (perform a st).
Proof.
  intros [Hi Hs]. split; [by apply history_inv_perform|by apply snapshots_ok_perform].
Qed.

(** Every state the application can reach is well formed. *)
Lemma reachable_wf st : reachable st -> wf_state st.
Proof. induction 1; [apply wf_initial|by apply wf_perform]. Qed.

Lemma reachable_run acts st : reachable st -> reachable (run acts st).
Proof.
  revert st. induction acts as [|a acts IH]; intros st Hst; [done|].
  cbn. apply IH. by constructor.
Qed.

End HistoryFacts.

(** ** The claims about the edit history *)

(** C1. From a well-formed state with a loaded image (cursor at least 0),
    a generation that produces the image [img] keeps exactly the first
    [historyIndex + 1] snapshots, puts [img] after them and leaves the
    cursor on the new last index. In particular, starting empty, loading
    [A] and appending [B] then [C] gives [[A; B; C]] with cursor 2; two
    undos give cursor 0 showing [A]; appending [D] from there gives
    [[A; D]] with cursor 1. *)
Theorem append_truncates_after_cursor :
  (forall br reply prompt actionName st img,
     wf_state st -> 0 <= historyIndex st ->
     finalImageSrc br actionName reply = inr img ->
     let st' := handleGenerate br reply prompt actionName st in
     history st' = take (Z.to_nat (historyIndex st + 1)) (history st) ++ [img]
     /\ historyIndex st' = Z.of_nat (length (history st')) - 1
     /\ historyIndex st' = historyIndex st + 1)
  /\ (forall file A genB genC genD B C D,
        String.prefix "image/" (file_type file) = true -> truthy A = true ->
        produces genB B -> produces genC C -> produces genD D ->
        let s3 := run [ActLoad file (ReaderLoad (Some A)); genB; genC] initialState in
        let s5 := run [ActUndo; ActUndo] s3 in
        let s6 := perform genD s5 in
        history s3 = [A; B; C] /\ historyIndex s3 = 2
        /\ historyIndex s5 = 0 /\ currentImageSrc s5 = Some A
        /\ history s6 = [A; D] /\ historyIndex s6 = 1).
Proof.
  split.
  - intros br reply prompt actionName st img Hwf Hi Hf st'. subst st'.
    rewrite (handleGenerate_success _ _ _ _ _ _ Hwf Hi Hf).
    cbn [history historyIndex]. split; [done|]. split; [|done].
    destruct Hwf as [[Hr _] _].
    rewrite length_app, length_take. cbn [length]. lia.
  - intros file A genB genC genD B C D Hty HA HB HC HD.
    destruct genB as [|?|brB rB pB aB| |]; try done.
    destruct genC as [|?|brC rC pC aC| |]; try done.
    destruct genD as [|?|brD rD pD aD| |]; try done.
    cbn [produces] in HB, HC, HD.
    pose proof (finalImageSrc_truthy _ _ _ _ HB) as HtB.
    pose proof (finalImageSrc_truthy _ _ _ _ HC) as HtC.
    cbn [run fold_left perform].
    set (s1 := processFile file (ReaderLoad (Some A)) initialState).
    assert (Hs1 : history s1 = [A] /\ historyIndex s1 = 0).
    { subst s1. unfold processFile. by rewrite Hty, HA. }
    assert (Hwf1 : wf_state s1).
    { apply (wf_perform (ActLoad file (ReaderLoad (Some A)))), wf_initial. }
    destruct Hs1 as [Hh1 Hi1].
    set (s2 := handleGenerate brB rB pB aB s1).
    assert (Hs2 : history s2 = [A; B] /\ historyIndex s2 = 1).
    { subst s2. rewrite (handleGenerate_success _ _ _ _ _ _ Hwf1 ltac:(lia) HB).
      cbn [history historyIndex]. by rewrite Hh1, Hi1. }
    assert (Hwf2 : wf_state s2) by apply (wf_perform (ActGenerate brB rB pB aB) _ Hwf1).
    destruct Hs2 as [Hh2 Hi2].
    set (s3 := handleGenerate brC rC pC aC s2).
    assert (Hs3 : history s3 = [A; B; C] /\ historyIndex s3 = 2).
    { subst s3. rewrite (handleGenerate_success _ _ _ _ _ _ Hwf2 ltac:(lia) HC).
      cbn [history historyIndex]. by rewrite Hh2, Hi2. }
    assert (Hwf3 : wf_state s3) by apply (wf_perform (ActGenerate brC rC pC aC) _ Hwf2).
    destruct Hs3 as [Hh3 Hi3].
    set (s4 := handleUndo s3).
    assert (Hs4 : history s4 = [A; B; C] /\ historyIndex s4 = 1).
    { subst s4. unfold handleUndo. rewrite Hi3. by cbn. }
    destruct Hs4 as [Hh4 Hi4].
    set (s5 := handleUndo s4).
    assert (Hs5 : history s5 = [A; B; C] /\ historyIndex s5 = 0).
    { subst s5. unfold handleUndo. rewrite Hi4. by cbn. }
    assert (Hwf5 : wf_state s5).
    { apply (wf_perform ActUndo), (wf_perform ActUndo), Hwf3. }
    destruct Hs5 as [Hh5 Hi5].
    repeat split; try done.
    + unfold currentImageSrc. by rewrite Hh5, Hi5.
    + rewrite (handleGenerate_success _ _ _ _ _ _ Hwf5 ltac:(lia) HD).
      cbn [history]. by rewrite Hh5, Hi5.
    + rewrite (handleGenerate_success _ _ _ _ _ _ Hwf5 ltac:(lia) HD).
      cbn [historyIndex]. by rewrite Hi5.
Qed.

Lemma append_truncates_after_cursor_witness :
  (history (perform (Sample.retouch "DDDD") (handleUndo Sample.edited)) =
     [Sample.snapA; "data:image/png;base64,BBBB"; "data:image/png;base64,DDDD"])
  /\ (history (perform (Sample.retouch "DDDD")
                (run [ActUndo; ActUndo] Sample.edited)) =
        [Sample.snapA; "data:image/png;base64,DDDD"]).
Proof.
  split.
  - assert (Hwf : wf_state (handleUndo Sample.edited)).
    { apply (bool_decide_unpack _). vm_compute. reflexivity. }
    assert (Hi : 0 <= historyIndex (handleUndo Sample.edited)).
    { vm_compute. discriminate. }
    assert (Hf : finalImageSrc Sample.browser "먼지 제거"
                   (ReplyParts (Some (Sample.part "DDDD")))
                 = inr "data:image/png;base64,DDDD"%string).
    { reflexivity. }
    exact (proj1 (proj1 append_truncates_after_cursor
                    Sample.browser (ReplyParts (Some (Sample.part "DDDD")))
                    "remove the dust"%string "먼지 제거"%string
                    (handleUndo Sample.edited) _ Hwf Hi Hf)).
  - assert (Hty : String.prefix "image/" (file_type Sample.pngFile) = true)
      by reflexivity.
    assert (HA : truthy Sample.snapA = true) by reflexivity.
    assert (HB : produces (Sample.retouch "BBBB") "data:image/png;base64,BBBB")
      by reflexivity.
    assert (HC : produces (Sample.retouch "CCCC") "data:image/png;base64,CCCC")
      by reflexivity.
    assert (HD : produces (Sample.retouch "DDDD") "data:image/png;base64,DDDD")
      by reflexivity.
    exact (proj1 (proj2 (proj2 (proj2 (proj2
             (proj2 append_truncates_after_cursor
                _ _ _ _ _ _ _ _ Hty HA HB HC HD)))))).
Defined.

(** C5. The cursor invariant [-1 <= historyIndex < length], with
    [historyIndex = -1] exactly when no snapshot is stored, holds in the
    initial state and is preserved by reset, load, append (generation),
    undo and redo. *)
Theorem cursor_invariant_preserved :
  history_inv initialState
  /\ forall st, history_inv st ->
       history_inv (handleReset st)
       /\ (forall file ev, history_inv (processFile file ev st))
       /\ (forall br reply prompt actionName,
             history_inv (handleGenerate br reply prompt actionName st))
       /\ history_inv (handleUndo st)
       /\ history_inv (handleRedo st).
Proof.
  split; [apply wf_initial|].
  intros st Hinv. split; [|split; [|split; [|split]]].
  - apply (history_inv_perform ActReset _ Hinv).
  - intros file ev. apply (history_inv_perform (ActLoad file ev) _ Hinv).
  - intros br reply prompt actionName.
    apply (history_inv_perform (ActGenerate br reply prompt actionName) _ Hinv).
  - apply (history_inv_perform ActUndo _ Hinv).
  - apply (history_inv_perform ActRedo _ Hinv).
Qed.

Lemma cursor_invariant_preserved_witness :
  history_inv Sample.edited
  /\ history_inv (handleRedo (handleUndo Sample.edited))
  /\ history_inv (perform (Sample.removeBackground "EEEE") (handleUndo Sample.edited)).
Proof.
  assert (H : history_inv Sample.edited).
  { apply (bool_decide_unpack _). vm_compute. reflexivity. }
  split; [exact H|]. split.
  - apply (proj2 cursor_invariant_preserved), (proj2 cursor_invariant_preserved), H.
  - apply (proj2 cursor_invariant_preserved), (proj2 cursor_invariant_preserved), H.
Defined.

(** C6. Undo moves the cursor one step back when it is above 0 and
    otherwise changes nothing at all; redo moves it one step forward
    when it is below the last index and otherwise changes nothing at
    all. A refused undo or redo shows as a disabled control
    ([isUndoable], [isRedoable]), never as an error, and neither handler
    touches the snapshot sequence. *)
Theorem undo_redo_move_cursor_only (st : AppState) :
  (0 < historyIndex st ->
     historyIndex (handleUndo st) = historyIndex st - 1
     /\ same_but_cursor st (handleUndo st))
  /\ (historyIndex st <= 0 ->
        handleUndo st = st /\ isUndoable st = false)
  /\ (historyIndex st < Z.of_nat (length (history st)) - 1 ->
        historyIndex (handleRedo st) = historyIndex st + 1
        /\ same_but_cursor st (handleRedo st))
  /\ (Z.of_nat (length (history st)) - 1 <= historyIndex st ->
        handleRedo st = st /\ isRedoable st = false)
  /\ history (handleUndo st) = history st
  /\ history (handleRedo st) = history st
  /\ error (handleUndo st) = error st
  /\ error (handleRedo st) = error st.
Proof.
  unfold handleUndo, handleRedo, isUndoable, isRedoable, same_but_cursor.
  destruct (Z.ltb_spec 0 (historyIndex st));
    destruct (Z.ltb_spec (historyIndex st) (Z.of_nat (length (history st)) - 1));
    cbn; repeat split; intros; try done; lia.
Qed.

Lemma undo_redo_move_cursor_only_witness :
  historyIndex (handleUndo Sample.edited) = 1
  /\ handleUndo Sample.loaded = Sample.loaded
  /\ historyIndex (handleRedo (handleUndo Sample.edited)) = 2
  /\ handleRedo Sample.edited = Sample.edited.
Proof.
  split; [|split; [|split]].
  - apply (proj1 (undo_redo_move_cursor_only Sample.edited)). vm_compute. reflexivity.
  - apply (proj1 (proj2 (undo_redo_move_cursor_only Sample.loaded))).
    vm_compute. discriminate.
  - apply (proj1 (proj2 (proj2 (undo_redo_move_cursor_only (handleUndo Sample.edited))))).
    vm_compute. reflexivity.
  - apply (proj1 (proj2 (proj2 (proj2 (undo_redo_move_cursor_only Sample.edited))))).
    vm_compute. discriminate.
Defined.

(** C7. A generation requested while the cursor is -1 (nothing loaded)
    is refused with the message asking for an image, whatever the model
    would have answered, and the snapshot sequence and the cursor stay
    as they were. *)
Theorem generate_without_image_refused br reply prompt actionName st :
  historyIndex st = -1 ->
  let st' := handleGenerate br reply prompt actionName st in
  st' = setError (Some "Please upload an image first.") st
  /\ error st' = Some "Please upload an image first."
  /\ history st' = history st
  /\ historyIndex st' = historyIndex st.
Proof.
  intros Hi st'. subst st'.
  rewrite handleGenerate_refused; [done|].
  left. unfold currentImageSrc. apply get_negative. lia.
Qed.

Lemma generate_without_image_refused_witness :
  history (perform (Sample.retouch "BBBB") initialState) = []
  /\ historyIndex (perform (Sample.retouch "BBBB") initialState) = -1
  /\ error (perform (Sample.retouch "BBBB") initialState)
     = Some "Please upload an image first."%string.
Proof.
  destruct (generate_without_image_refused Sample.browser
              (ReplyParts (Some (Sample.part "BBBB")))
              "remove the dust" "먼지 제거" initialState eq_refl)
    as (_ & He & Hh & Hi).
  split; [exact Hh|split; [exact Hi|exact He]].
Defined.

(** C8. When the model call throws, answers without an image part, or
    the chroma-key post-processing rejects, the generation fails and the
    snapshot sequence and the cursor are exactly what they were before
    the call; only the error message and the loading flag are set. *)
Theorem failed_edit_leaves_history br reply prompt actionName st :
  (forall e, finalImageSrc br actionName (ReplyThrows e) = inl e)
  /\ (exists e, finalImageSrc br actionName (ReplyParts None) = inl e)
  /\ (forall e,
        finalImageSrc br actionName reply = inl e ->
        let st' := handleGenerate br reply prompt actionName st in
        history st' = history st
        /\ historyIndex st' = historyIndex st
        /\ originalFile st' = originalFile st
        /\ exists msg, error st' = Some msg).
Proof.
  split; [done|]. split; [by eexists|].
  intros e Hf st'. subst st'. unfold handleGenerate. rewrite Hf.
  destruct (currentImageSrc st) as [cur|]; [|cbn; eauto].
  destruct (truthy cur); cbn; eauto.
Qed.

Lemma failed_edit_leaves_history_witness :
  history (perform Sample.failing Sample.edited) = history Sample.edited
  /\ historyIndex (perform Sample.failing Sample.edited) = 2.
Proof.
  destruct (proj2 (proj2 (failed_edit_leaves_history Sample.browser
              (ReplyThrows (ThrownError "503")) "remove the dust" "먼지 제거"
              Sample.edited)) (ThrownError "503") eq_refl)
    as (Hh & Hi & _).
  split; [exact Hh|exact Hi].
Defined.

(** C9, as stated: no operation other than append changes the number of
    snapshots. Reset does: it empties a history that holds one image. *)
Lemma reset_changes_length :
  length (history Sample.loaded) = 1%nat
  /\ length (history (handleReset Sample.loaded)) = 0%nat
  /\ length (history Sample.edited) = 3%nat
  /\ length (history (processFile Sample.pngFile (ReaderLoad (Some Sample.snapA))
                        Sample.edited)) = 1%nat.
Proof. repeat split. Qed.

(** C9, amended. Undo and redo never change the number of snapshots and
    reset makes it 0. A load that is accepted (a file type starting with
    [image/] and a non-empty reading result) makes the history that one
    image, so the number 1; a load that is rejected leaves the sequence
    alone. A generation that succeeds (an image is displayed and the
    [try] block produces an image) cuts what lay beyond the cursor and
    adds the new image, which makes the number [historyIndex + 2], at
    most one more than before; a generation that fails (nothing
    displayed, or the [try] block throws) leaves the sequence alone. *)
Theorem length_changed_by_append_reset_load (st : AppState) :
  length (history (handleUndo st)) = length (history st)
  /\ length (history (handleRedo st)) = length (history st)
  /\ length (history (handleReset st)) = 0%nat
  /\ (forall file ev,
        (forall img,
           String.prefix "image/" (file_type file) = true ->
           ev = ReaderLoad (Some img) -> truthy img = true ->
           history (processFile file ev st) = [img]
           /\ length (history (processFile file ev st)) = 1%nat)
        /\ (String.prefix "image/" (file_type file) = false
            \/ ev = ReaderError \/ ev = ReaderLoad None
            \/ ev = ReaderLoad (Some ""%string) ->
            history (processFile file ev st) = history st))
  /\ (forall br reply prompt actionName,
        let st' := handleGenerate br reply prompt actionName st in
        (forall cur img,
           currentImageSrc st = Some cur -> truthy cur = true ->
           finalImageSrc br actionName reply = inr img ->
           history st'
           = take (Z.to_nat (historyIndex st + 1)) (history st) ++ [img]
           /\ Z.of_nat (length (history st')) = historyIndex st + 2
           /\ (length (history st') <= length (history st) + 1)%nat)
        /\ (currentImageSrc st = None
            \/ (exists cur, currentImageSrc st = Some cur /\ truthy cur = false)
            \/ (exists e, finalImageSrc br actionName reply = inl e) ->
            history st' = history st)).
Proof.
  split; [|split; [|split; [|split]]].
  - unfold handleUndo. by destruct (0 <? historyIndex st).
  - unfold handleRedo. by destruct (_ <? _).
  - reflexivity.
  - intros file ev. split.
    + intros img Hty -> Himg. unfold processFile. by rewrite Hty, Himg.
    + unfold processFile. intros [Hty|[->|[->| ->]]].
      * by rewrite Hty.
      * by destruct (String.prefix _ _).
      * by destruct (String.prefix _ _).
      * by destruct (String.prefix _ _).
  - intros br reply prompt actionName st'. subst st'. split.
    + intros cur img Hc Ht Hf.
      rewrite (handleGenerate_guarded _ _ _ _ _ _ Hc Ht), Hf.
      apply get_Some_range in Hc.
      unfold appendSnapshot, JSArray.push, setIsLoading, setError, setHistoryIndex,
        setHistory. cbn [originalFile history historyIndex isLoading error].
      rewrite slice0_take by lia.
      split; [done|]. rewrite length_app, length_take. cbn [length]. lia.
    + intros [Hc|[(cur & Hc & Ht)|[e Hf]]].
      * by rewrite handleGenerate_refused by by left.
      * rewrite handleGenerate_refused; [done|]. right. by exists cur.
      * unfold handleGenerate. rewrite Hf.
        destruct (currentImageSrc st) as [cur|]; [|done].
        by destruct (truthy cur).
Qed.

Lemma length_changed_by_append_reset_load_witness :
  Z.of_nat (length (history (perform (Sample.retouch "DDDD")
                               (handleUndo (handleUndo Sample.edited))))) = 2
  /\ history (perform Sample.failing Sample.edited) = history Sample.edited
  /\ length (history (processFile Sample.pngFile (ReaderLoad (Some Sample.snapA))
                        Sample.edited)) = 1%nat
  /\ history (processFile Sample.pngFile ReaderError Sample.edited)
     = history Sample.edited.
Proof.
  split; [|split; [|split]].
  - exact (proj1 (proj2 (proj1
      (proj2 (proj2 (proj2 (proj2
         (length_changed_by_append_reset_load
            (handleUndo (handleUndo Sample.edited))))))
         Sample.browser (ReplyParts (Some (Sample.part "DDDD")))
         "remove the dust"%string "먼지 제거"%string)
      Sample.snapA "data:image/png;base64,DDDD"%string eq_refl eq_refl eq_refl))).
  - exact (proj2
      (proj2 (proj2 (proj2 (proj2
         (length_changed_by_append_reset_load Sample.edited))))
         Sample.browser (ReplyThrows (ThrownError "503"))
         "remove the dust"%string "먼지 제거"%string)
      (or_intror (or_intror (ex_intro _ (ThrownError "503") eq_refl)))).
  - exact (proj2 (proj1
      (proj1 (proj2 (proj2 (proj2
         (length_changed_by_append_reset_load Sample.edited))))
         Sample.pngFile (ReaderLoad (Some Sample.snapA)))
      Sample.snapA eq_refl eq_refl eq_refl)).
  - exact (proj2
      (proj1 (proj2 (proj2 (proj2
         (length_changed_by_append_reset_load Sample.edited))))
         Sample.pngFile ReaderError)
      (or_intror (or_introl eq_refl))).
Defined.

(** * Properties of the chroma-key pass *)

Section PixelLoopFacts.
Variable cfg : ChromaKeyConfig.

(** Induction over a byte array one pixel at a time. *)
Lemma pixel_ind (P : list Z -> Prop) :
  (forall data, (length data < 4)%nat -> P data) ->
  (forall r g b a rest, P rest -> P (r :: g :: b :: a :: rest)) ->
  forall data, P data.
Proof.
  intros Hshort Hpixel data.
  remember (length data) as n eqn:Hn.
  revert data Hn. induction n as [n IH] using lt_wf_ind. intros data ->.
  destruct data as [|r [|g [|b [|a rest]]]];
    try (apply Hshort; cbn; lia).
  apply Hpixel. eapply IH; [|reflexivity]. cbn. lia.
Qed.

Lemma ApplyChromaKey_short data :
  (length data < 4)%nat -> ApplyChromaKey cfg data = data.
Proof.
  destruct data as [|r [|g [|b [|a rest]]]]; cbn; [done..|lia].
Qed.

Lemma pixelLoop_done fuel i data :
  (length data <= i)%nat -> pixelLoop cfg fuel i data = data.
Proof.
  intros Hi. destruct fuel; [done|]. cbn.
  rewrite bool_decide_eq_false_2; [done|lia].
Qed.

Lemma keyStep_pixel pre r g b a rest :
  keyStep cfg (pre ++ r :: g :: b :: a :: rest) (length pre) =
    pre ++ r :: g :: b :: (if isBackgroundPixel cfg r g b then 0 else a) :: rest.
Proof.
  unfold keyStep, isBackgroundPixel.
  rewrite !lookup_app_r by lia.
  replace (length pre - length pre)%nat with 0%nat by lia.
  replace (length pre + 1 - length pre)%nat with 1%nat by lia.
  replace (length pre + 2 - length pre)%nat with 2%nat by lia.
  cbn [lookup list_lookup JS.number_of_read].
  destruct (isBackground cfg _ _ _); [|done].
  by rewrite insert_app_r.
Qed.

Lemma keyStep_short pre suf :
  (length suf < 4)%nat -> keyStep cfg (pre ++ suf) (length pre) = pre ++ suf.
Proof.
  intros Hs. unfold keyStep. destruct (isBackground cfg _ _ _); [|done].
  apply list_insert_ge. rewrite length_app. lia.
Qed.

(** The loop invariant: with the bytes before [i] already treated and
    enough iterations left, the loop finishes the rest of the array as
    the specification prescribes. *)
Lemma pixelLoop_app fuel : forall pre suf,
  (length suf <= 4 * fuel)%nat ->
  pixelLoop cfg fuel (length pre) (pre ++ suf) = pre ++ ApplyChromaKey cfg suf.
Proof.
  induction fuel as [|fuel IH]; intros pre suf Hfuel.
  - destruct suf; [done|cbn in Hfuel; lia].
  - destruct (decide (length suf < 4)%nat) as [Hs|Hs].
    + rewrite ApplyChromaKey_short by done. cbn [pixelLoop].
      case_bool_decide; [|done].
      rewrite keyStep_short by done.
      apply pixelLoop_done. rewrite length_app. lia.
    + destruct suf as [|r [|g [|b [|a rest]]]]; try (cbn in Hs; lia).
      cbn [pixelLoop ApplyChromaKey].
      rewrite bool_decide_eq_true_2 by (rewrite length_app; cbn; lia).
      rewrite keyStep_pixel.
      set (a' := if isBackgroundPixel cfg r g b then 0 else a).
      replace (pre ++ r :: g :: b :: a' :: rest)
        with ((pre ++ [r; g; b; a']) ++ rest) by by rewrite <- app_assoc.
      replace (length pre + 4)%nat with (length (pre ++ [r; g; b; a']))
        by (rewrite length_app; cbn; lia).
      rewrite IH by (cbn in Hfuel; lia).
      by rewrite <- app_assoc.
Qed.

(** The index loop of the source computes the pass of the
    specification, and any larger iteration budget gives the same
    array: the loop stops by its own test. *)
Lemma keyPixels_spec data : keyPixels cfg data = ApplyChromaKey cfg data.
Proof. apply (pixelLoop_app (length data) [] data). lia. Qed.

Lemma pixelLoop_enough_fuel fuel data :
  (length data <= 4 * fuel)%nat -> pixelLoop cfg fuel 0 data = keyPixels cfg data.
Proof.
  intros Hf. rewrite keyPixels_spec. by apply (pixelLoop_app fuel [] data).
Qed.

Lemma ApplyChromaKey_length data :
  length (ApplyChromaKey cfg data) = length data.
Proof.
  induction data as [data Hs|r g b a rest IH] using pixel_ind.
  - by rewrite ApplyChromaKey_short.
  - cbn. by rewrite IH.
Qed.

Lemma ApplyChromaKey_colour data : forall i,
  (i mod 4 <> 3)%nat -> ApplyChromaKey cfg data !! i = data !! i.
Proof.
  induction data as [data Hs|r g b a rest IH] using pixel_ind; intros i Hi.
  - by rewrite ApplyChromaKey_short.
  - cbn [ApplyChromaKey].
    destruct i as [|[|[|[|i]]]]; [done..|by cbn in Hi|].
    cbn [lookup list_lookup]. apply IH.
    replace (S (S (S (S i)))) with (i + 1 * 4)%nat in Hi by lia.
    by rewrite Nat.Div0.mod_add in Hi.
Qed.

Lemma ApplyChromaKey_alpha data : forall p r g b a,
  data !! (4 * p)%nat = Some r -> data !! (4 * p + 1)%nat = Some g ->
  data !! (4 * p + 2)%nat = Some b -> data !! (4 * p + 3)%nat = Some a ->
  ApplyChromaKey cfg data !! (4 * p + 3)%nat =
    Some (if isBackgroundPixel cfg r g b then 0 else a).
Proof.
  induction data as [data Hs|r0 g0 b0 a0 rest IH] using pixel_ind;
    intros p r g b a Hr Hg Hb Ha.
  - apply lookup_lt_Some in Ha. lia.
  - destruct p as [|p].
    + cbn in Hr, Hg, Hb, Ha. by simplify_eq.
    + replace (4 * S p)%nat with (S (S (S (S (4 * p))))) in * by lia.
      cbn [ApplyChromaKey]. cbn in Hr, Hg, Hb, Ha |- *. by apply IH.
Qed.

Lemma ApplyChromaKey_idempotent data :
  ApplyChromaKey cfg (ApplyChromaKey cfg data) = ApplyChromaKey cfg data.
Proof.
  induction data as [data Hs|r g b a rest IH] using pixel_ind.
  - by rewrite !(ApplyChromaKey_short data Hs).
  - cbn [ApplyChromaKey]. rewrite IH.
    by destruct (isBackgroundPixel cfg r g b).
Qed.

End PixelLoopFacts.

(** C4. The pixel loop returns an array of the same length in which every
    colour byte (red, green, blue) of every pixel is the input byte, the
    alpha byte of a pixel classified as background is 0, and the alpha
    byte of a pixel not so classified is the input byte. *)
Theorem chroma_key_clears_only_background_alpha cfg (data : list Z) :
  let out := keyPixels cfg data in
  length out = length data
  /\ (forall i, (i mod 4 <> 3)%nat -> out !! i = data !! i)
  /\ (forall p r g b a,
        data !! (4 * p)%nat = Some r -> data !! (4 * p + 1)%nat = Some g ->
        data !! (4 * p + 2)%nat = Some b -> data !! (4 * p + 3)%nat = Some a ->
        (isBackgroundPixel cfg r g b = true -> out !! (4 * p + 3)%nat = Some 0)
        /\ (isBackgroundPixel cfg r g b = false -> out !! (4 * p + 3)%nat = Some a)).
Proof.
  cbn zeta. rewrite keyPixels_spec.
  split; [apply ApplyChromaKey_length|].
  split; [apply ApplyChromaKey_colour|].
  intros p r g b a Hr Hg Hb Ha.
  rewrite (ApplyChromaKey_alpha cfg data p r g b a Hr Hg Hb Ha).
  split; by intros ->.
Qed.

Lemma chroma_key_clears_only_background_alpha_witness :
  keyPixels magentaKey (img_data Sample.twoPixels) !! 3%nat = Some 0
  /\ keyPixels magentaKey (img_data Sample.twoPixels) !! 7%nat = Some 255
  /\ keyPixels magentaKey (img_data Sample.twoPixels) !! 4%nat = Some 10.
Proof.
  pose proof (chroma_key_clears_only_background_alpha magentaKey
                (img_data Sample.twoPixels)) as (_ & Hc & Ha).
  split; [|split].
  - apply (proj1 (Ha 0%nat 255 0 255 255 eq_refl eq_refl eq_refl eq_refl)).
    vm_compute. reflexivity.
  - apply (proj2 (Ha 1%nat 10 20 30 255 eq_refl eq_refl eq_refl eq_refl)).
    vm_compute. reflexivity.
  - rewrite (Hc 4%nat); [reflexivity|]. cbn. lia.
Defined.

(** C10. The pixel loop is idempotent: a second pass over its own output
    changes nothing. *)
Theorem chroma_key_idempotent cfg (data : list Z) :
  keyPixels cfg (keyPixels cfg data) = keyPixels cfg data.
Proof. rewrite !keyPixels_spec. apply ApplyChromaKey_idempotent. Qed.

(** * Properties of the colour conversion *)

Section ColorSpaceFacts.
Local Open Scope float_scope.

Lemma channel_in_bytes z : channel z -> In z bytes.
Proof.
  intros Hz. unfold bytes. apply in_map_iff. exists (Z.to_nat z).
  split; [unfold channel in Hz; lia|]. apply in_seq. unfold channel in Hz. lia.
Qed.

Lemma units_table : units = map unit_of_byte bytes.
Proof. vm_compute. reflexivity. Qed.

Lemma channel_in_units z : channel z -> In (unit_of_byte z) units.
Proof. intros Hz. rewrite units_table. apply in_map, channel_in_bytes, Hz. Qed.

Lemma rgbToHsl_hue r g b :
  (rgbToHsl r g b).1.1 = hueOfUnits (r / 255) (g / 255) (b / 255).
Proof.
  unfold rgbToHsl, hueOfUnits. cbn zeta.
  by destruct (negb (_ =? _)).
Qed.

Lemma forallb3_In {A} (f : A -> A -> A -> bool) (l : list A) :
  forallb3 f l = true ->
  forall x y z, In x l -> In y l -> In z l -> f x y z = true.
Proof.
  unfold forallb3. intros Hall x y z Hx Hy Hz.
  rewrite forallb_forall in Hall. specialize (Hall x Hx). cbn beta in Hall.
  rewrite forallb_forall in Hall. specialize (Hall y Hy). cbn beta in Hall.
  rewrite forallb_forall in Hall. exact (Hall z Hz).
Qed.

Lemma all_hues_in_range : forallb3 hueCheck units = true.
Proof. vm_compute. reflexivity. Qed.

Lemma pixel_hue_in_range r g b :
  channel r -> channel g -> channel b ->
  hue_in_range (pixelHsl r g b).1.1 = true.
Proof.
  intros Hr%channel_in_units Hg%channel_in_units Hb%channel_in_units.
  unfold pixelHsl. rewrite rgbToHsl_hue.
  exact (forallb3_In hueCheck units all_hues_in_range _ _ _ Hr Hg Hb).
Qed.

End ColorSpaceFacts.

Section ColourClaims.
Local Open Scope float_scope.

Lemma max2_cases x y :
  is_nan x = false -> is_nan y = false -> JS.max2 x y = x \/ JS.max2 x y = y.
Proof.
  intros Hx Hy. unfold JS.max2. rewrite Hx, Hy. cbn [orb].
  destruct (x <? y), (y <? x), (get_sign x); auto.
Qed.

Lemma Math_max_cases x y z :
  is_nan x = false -> is_nan y = false -> is_nan z = false ->
  JS.Math_max x y z = x \/ JS.Math_max x y z = y \/ JS.Math_max x y z = z.
Proof.
  intros Hx Hy Hz. unfold JS.Math_max.
  destruct (max2_cases x y Hx Hy) as [Hm|Hm];
    (destruct (max2_cases (JS.max2 x y) z) as [Hm'|Hm'];
     [by rewrite Hm|done|rewrite Hm', Hm; auto|auto]).
Qed.

Lemma eqb_refl_not_nan x : is_nan x = false -> (x =? x) = true.
Proof. unfold is_nan. by destruct (x =? x). Qed.

Lemma units_not_nan : forallb (fun u => negb (is_nan u)) units = true.
Proof. vm_compute. reflexivity. Qed.

Lemma unit_not_nan z : channel z -> is_nan (unit_of_byte z) = false.
Proof.
  intros Hz%channel_in_units.
  pose proof units_not_nan as Hall. rewrite forallb_forall in Hall.
  apply negb_true_iff, (Hall _ Hz).
Qed.

(** On pixel bytes the maximum is one of the three channels, so the
    [switch] always takes one of its three cases. *)
Lemma max_is_a_channel r g b :
  channel r -> channel g -> channel b ->
  let R := unit_of_byte r in
  let G := unit_of_byte g in
  let B := unit_of_byte b in
  let max := JS.Math_max R G B in
  (max =? R) = true \/ (max =? G) = true \/ (max =? B) = true.
Proof.
  intros Hr%unit_not_nan Hg%unit_not_nan Hb%unit_not_nan. cbn zeta.
  destruct (Math_max_cases _ _ _ Hr Hg Hb) as [->|[->| ->]];
    rewrite eqb_refl_not_nan by done; auto.
Qed.

(** C3. On the three colour bytes of a pixel, [rgbToHsl] is the standard
    conversion computed in binary64: lightness is [(max + min) / 2];
    when [max = min] hue and saturation are 0; otherwise saturation is
    [d / (2 - max - min)] when lightness exceeds 0.5 and [d / (max + min)]
    when not, and hue is the sector formula of the largest channel,
    divided by 6 and scaled to degrees; the hue always lies in
    [[0, 360)]. Pure red, green and blue map to hues 0, 120 and 240 with
    saturation 1 and lightness 0.5; white and black are achromatic with
    lightness 1 and 0. *)
Theorem rgbToHsl_standard_conversion :
  (forall r g b, channel r -> channel g -> channel b ->
     let R := unit_of_byte r in
     let G := unit_of_byte g in
     let B := unit_of_byte b in
     let max := JS.Math_max R G B in
     let min := JS.Math_min R G B in
     let d := max - min in
     let '(h, s, l) := pixelHsl r g b in
     l = (max + min) / 2
     /\ ((max =? min) = true -> h = 0 /\ s = 0)
     /\ ((max =? min) = false ->
           s = (if 0.5 <? l then d / (2 - max - min) else d / (max + min))
           /\ ((max =? R) = true ->
                 h = ((G - B) / d + (if G <? B then 6 else 0)) / 6 * 360)
           /\ ((max =? R) = false -> (max =? G) = true ->
                 h = ((B - R) / d + 2) / 6 * 360)
           /\ ((max =? R) = false -> (max =? G) = false ->
                 (max =? B) = true /\ h = ((R - G) / d + 4) / 6 * 360))
     /\ (0 <=? h) = true /\ (h <? 360) = true)
  /\ pixelHsl 255 0 0 = (0, 1, 0.5)
  /\ pixelHsl 0 255 0 = (120, 1, 0.5)
  /\ pixelHsl 0 0 255 = (240, 1, 0.5)
  /\ pixelHsl 255 255 255 = (0, 0, 1)
  /\ pixelHsl 0 0 0 = (0, 0, 0).
Proof.
  split; [|by vm_compute].
  intros r g b Hr Hg Hb. cbn zeta.
  pose proof (pixel_hue_in_range r g b Hr Hg Hb) as Hrange.
  pose proof (max_is_a_channel r g b Hr Hg Hb) as Hmax. cbn zeta in Hmax.
  revert Hrange. unfold pixelHsl, rgbToHsl. cbn zeta.
  fold (unit_of_byte r) (unit_of_byte g) (unit_of_byte b).
  set (R := unit_of_byte r) in *. set (G := unit_of_byte g) in *.
  set (B := unit_of_byte b) in *.
  set (max := JS.Math_max R G B) in *. set (min := JS.Math_min R G B).
  destruct (max =? min) eqn:Hachro; cbn [negb fst snd];
    intros [Hlo Hhi]%andb_true_iff.
  - split; [done|]. split; [done|]. split; [done|]. by split.
  - split; [done|]. split; [done|]. split; [|by split].
    intros _. split; [done|]. unfold hueSector.
    destruct (max =? R) eqn:HR; [by repeat split|].
    destruct (max =? G) eqn:HG; [by repeat split|].
    destruct Hmax as [?|[?|HB]]; [done..|]. rewrite HB. by repeat split.
Qed.

Lemma rgbToHsl_standard_conversion_witness :
  (pixelHsl 255 3 24).1.2 = 1 /\ (pixelHsl 255 3 24).1.1 = 355.
Proof.
  assert (Hr : channel 255) by (unfold channel; lia).
  assert (Hg : channel 3) by (unfold channel; lia).
  assert (Hb : channel 24) by (unfold channel; lia).
  pose proof (proj1 rgbToHsl_standard_conversion 255%Z 3%Z 24%Z Hr Hg Hb) as H.
  cbn zeta in H.
  destruct (pixelHsl 255 3 24) as [[h s] l] eqn:Hhsl.
  destruct H as (-> & _ & Hs & _).
  destruct (Hs eq_refl) as (-> & HhR & _).
  rewrite (HhR eq_refl). cbn [fst snd].
  split; vm_compute; reflexivity.
Defined.

(** C2. A pixel is classified as background exactly when the circular
    hue distance [min (|h - ref|) (360 - |h - ref|)] is at most the
    tolerance, the saturation is at least its floor and the lightness
    lies between its floor and its ceiling. In particular a pixel of
    hue 355 matches a key of reference hue 5 and tolerance 15: its
    circular distance is 10, where the linear distance 350 would not
    pass. *)
Theorem background_iff_four_conditions :
  (forall cfg r g b,
     let '(h, s, l) := pixelHsl r g b in
     let hueDiff := JS.Math_abs (h - referenceHue cfg) in
     isBackgroundPixel cfg r g b = true <->
       (JS.min2 hueDiff (360 - hueDiff) <=? hueTolerance cfg) = true
       /\ (minSaturation cfg <=? s) = true
       /\ (minLightness cfg <=? l) = true
       /\ (l <=? maxLightness cfg) = true)
  /\ (forall cfg r g b s l,
        referenceHue cfg = 5 -> hueTolerance cfg = 15 ->
        pixelHsl r g b = (355, s, l) ->
        (minSaturation cfg <=? s) = true ->
        (minLightness cfg <=? l) = true ->
        (l <=? maxLightness cfg) = true ->
        hueDistance cfg 355 = 10
        /\ isBackgroundPixel cfg r g b = true)
  /\ (JS.Math_abs (355 - 5) = 350 /\ (350 <=? 15) = false)
  /\ (pixelHsl 255 3 24).1.1 = 355
  /\ isBackgroundPixel Sample.redKey 255 3 24 = true.
Proof.
  split; [|split; [|by vm_compute]].
  - intros cfg r g b. unfold isBackgroundPixel, isBackground.
    fold (pixelHsl r g b). destruct (pixelHsl r g b) as [[h s] l].
    cbn zeta. unfold matchesKey, hueDistance.
    rewrite !andb_true_iff. tauto.
  - intros cfg r g b s l Href Htol Hhsl Hs Hlo Hhi.
    assert (Hd : hueDistance cfg 355 = 10).
    { unfold hueDistance. rewrite Href. by vm_compute. }
    split; [done|].
    unfold isBackgroundPixel, isBackground. fold (pixelHsl r g b).
    rewrite Hhsl. unfold matchesKey. rewrite Hd, Htol, Hs, Hlo, Hhi.
    by vm_compute.
Qed.

Lemma background_iff_four_conditions_witness :
  isBackgroundPixel Sample.redKey 255 3 24 = true
  /\ isBackgroundPixel magentaKey 255 0 255 = true.
Proof.
  split.
  - refine (proj2 (proj1 (proj2 background_iff_four_conditions)
             Sample.redKey 255%Z 3%Z 24%Z _ _ eq_refl eq_refl _ _ _ _)).
    + vm_compute. reflexivity.
    + vm_compute. reflexivity.
    + vm_compute. reflexivity.
    + vm_compute. reflexivity.
  - pose proof (proj1 background_iff_four_conditions magentaKey 255%Z 0%Z 255%Z)
      as H.
    destruct (pixelHsl 255 0 255) as [[h s] l] eqn:Hhsl.
    apply H. vm_compute in Hhsl. injection Hhsl as <- <- <-.
    repeat split; vm_compute; reflexivity.
Defined.

End ColourClaims.

(** * Further properties of the edit history *)

Section SessionFacts.
Implicit Types (st : AppState) (img : string).

Lemma handleUndo_history st : history (handleUndo st) = history st.
Proof. unfold handleUndo. by destruct (0 <? historyIndex st). Qed.

Lemma handleRedo_history st : history (handleRedo st) = history st.
Proof. unfold handleRedo. by destruct (_ <? _). Qed.

Lemma reachable_not_loading st : reachable st -> isLoading st = false.
Proof.
  induction 1 as [|a st _ IH]; [done|].
  destruct a as [|file ev|br reply prompt actionName| |]; cbn [perform].
  - done.
  - unfold processFile.
    destruct (String.prefix _ _); [|done].
    destruct ev as [[img|]|]; [|done..]. by destruct (truthy img).
  - unfold handleGenerate.
    destruct (currentImageSrc st) as [cur|]; [|done].
    by destruct (truthy cur).
  - unfold handleUndo. by destruct (0 <? historyIndex st).
  - unfold handleRedo. by destruct (_ <? _).
Qed.

(** X1. In every reachable state either nothing is loaded (cursor -1,
    empty history, nothing displayed) or the cursor points at a stored,
    non-empty snapshot, which is the image displayed. *)
Theorem reachable_display st :
  reachable st ->
  (historyIndex st = -1 /\ history st = [] /\ currentImageSrc st = None)
  \/ (0 <= historyIndex st
      /\ exists cur, currentImageSrc st = Some cur
                     /\ history st !! Z.to_nat (historyIndex st) = Some cur
                     /\ truthy cur = true).
Proof.
  intros Hwf%reachable_wf.
  destruct (decide (historyIndex st = -1)) as [Hi|Hi].
  - left. destruct Hwf as [[_ Hempty] _]. split; [done|]. split.
    + apply length_zero_iff_nil. by apply Hempty.
    + unfold currentImageSrc. apply get_negative. lia.
  - right. assert (0 <= historyIndex st) as Hpos by (destruct Hwf as [[? _] _]; lia).
    split; [done|].
    destruct (current_of_wf st Hwf Hpos) as (cur & Hc & Ht).
    exists cur. split; [done|]. split; [|done].
    unfold currentImageSrc, JSArray.get in Hc.
    by destruct (Z.ltb_spec (historyIndex st) 0); [lia|].
Qed.

Lemma reachable_display_witness :
  exists cur, currentImageSrc Sample.edited = Some cur /\ truthy cur = true.
Proof.
  assert (Hr : reachable Sample.edited).
  { apply (reachable_run [Sample.retouch "BBBB"; Sample.retouch "CCCC"]).
    apply (reach_step (ActLoad Sample.pngFile (ReaderLoad (Some Sample.snapA)))).
    apply reach_init. }
  destruct (reachable_display Sample.edited Hr) as [(Hi & _)|(_ & cur & Hc & _ & Ht)].
  - vm_compute in Hi. discriminate Hi.
  - exists cur. split; [exact Hc|exact Ht].
Defined.

(** X2. Between two handler runs the loading flag is off, so the edit
    buttons are enabled exactly when an image is loaded; and a generation
    started from an enabled button is never answered with the request to
    upload an image first. *)
Theorem edit_buttons_follow_the_cursor st :
  reachable st ->
  isLoading st = false
  /\ (generateDisabled st = false <-> 0 <= historyIndex st)
  /\ (generateDisabled st = false ->
      forall br reply prompt actionName,
        isLoading (handleGenerate br reply prompt actionName st) = false
        /\ error (handleGenerate br reply prompt actionName st)
           <> Some "Please upload an image first."%string).
Proof.
  intros Hr. pose proof (reachable_not_loading st Hr) as Hl.
  split; [done|].
  assert (Hen : generateDisabled st = false <-> 0 <= historyIndex st).
  { unfold generateDisabled. rewrite Hl, orb_false_r, negb_false_iff.
    destruct (reachable_display st Hr) as [(Hi & _ & ->)|(Hi & cur & -> & _ & Ht)];
      cbn [shown]; [split; [done|lia]|by rewrite Ht]. }
  split; [done|].
  intros Hpos%Hen br reply prompt actionName.
  destruct (current_of_wf st (reachable_wf st Hr) Hpos) as (cur & Hc & Ht).
  rewrite (handleGenerate_guarded _ _ _ _ _ _ Hc Ht).
  split; [done|].
  destruct (finalImageSrc br actionName reply); cbn; discriminate.
Qed.

Lemma edit_buttons_follow_the_cursor_witness :
  generateDisabled initialState = true /\ generateDisabled Sample.loaded = false.
Proof.
  assert (Hr : reachable Sample.loaded).
  { apply (reach_step (ActLoad Sample.pngFile (ReaderLoad (Some Sample.snapA)))).
    apply reach_init. }
  split.
  - destruct (generateDisabled initialState) eqn:Hd; [reflexivity|].
    apply (proj1 (proj2 (edit_buttons_follow_the_cursor initialState reach_init))) in Hd.
    vm_compute in Hd. destruct (Hd eq_refl).
  - apply (proj1 (proj2 (edit_buttons_follow_the_cursor Sample.loaded Hr))).
    vm_compute. discriminate.
Defined.

(** X3. Under the cursor invariant undo and redo are inverse to each
    other: redo after an allowed undo, and undo after an allowed redo,
    give back the very same state. *)
Theorem undo_redo_round_trip st :
  history_inv st ->
  (isUndoable st = true -> handleRedo (handleUndo st) = st)
  /\ (isRedoable st = true -> handleUndo (handleRedo st) = st).
Proof.
  intros [Hr Hiff]. unfold isUndoable, isRedoable, handleUndo, handleRedo, setHistoryIndex.
  split; intros Hen; rewrite Hen; cbn [history historyIndex].
  - apply Z.ltb_lt in Hen.
    destruct (Z.ltb_spec (historyIndex st - 1) (Z.of_nat (length (history st)) - 1));
      [|lia].
    destruct st as [f h i l e]. cbn in *. f_equal. lia.
  - apply Z.ltb_lt in Hen.
    destruct (Z.ltb_spec 0 (historyIndex st + 1)); [|lia].
    destruct st as [f h i l e]. cbn in *. f_equal. lia.
Qed.

Lemma undo_redo_round_trip_witness :
  handleRedo (handleUndo Sample.edited) = Sample.edited
  /\ handleUndo (handleRedo (handleUndo Sample.edited)) = handleUndo Sample.edited.
Proof.
  assert (H2 : history_inv Sample.edited).
  { apply (bool_decide_unpack _). vm_compute. reflexivity. }
  assert (H1 : history_inv (handleUndo Sample.edited)).
  { apply (bool_decide_unpack _). vm_compute. reflexivity. }
  split.
  - apply (proj1 (undo_redo_round_trip Sample.edited H2) eq_refl).
  - apply (proj2 (undo_redo_round_trip (handleUndo Sample.edited) H1) eq_refl).
Defined.

(** X4. After a successful generation the new image is the one
    displayed, redo is no longer possible, undo and download are, and an
    undo brings back the image that was displayed before the generation. *)
Theorem generate_then_undo br reply prompt actionName st img :
  wf_state st -> 0 <= historyIndex st ->
  finalImageSrc br actionName reply = inr img ->
  let st' := handleGenerate br reply prompt actionName st in
  currentImageSrc st' = Some img
  /\ isRedoable st' = false
  /\ isUndoable st' = true
  /\ canDownload st' = true
  /\ currentImageSrc (handleUndo st') = currentImageSrc st
  /\ historyIndex (handleUndo st') = historyIndex st.
Proof.
  intros Hwf Hi Hf st'. subst st'.
  rewrite (handleGenerate_success _ _ _ _ _ _ Hwf Hi Hf).
  destruct Hwf as [[Hr _] _].
  assert (Hlen : length (take (Z.to_nat (historyIndex st + 1)) (history st))
                 = Z.to_nat (historyIndex st + 1)).
  { rewrite length_take. lia. }
  unfold currentImageSrc, isRedoable, isUndoable, canDownload, handleUndo,
    JSArray.get. cbn [history historyIndex].
  rewrite length_app, Hlen. cbn [length].
  destruct (Z.ltb_spec 0 (historyIndex st + 1)); [|lia].
  cbn [setHistoryIndex history historyIndex].
  destruct (Z.ltb_spec (historyIndex st + 1) 0); [lia|].
  destruct (Z.ltb_spec (historyIndex st + 1 - 1) 0); [lia|].
  destruct (Z.ltb_spec (historyIndex st) 0); [lia|].
  split; [|split; [|split; [|split; [|split]]]]; try done.
  - rewrite lookup_app_r by lia. by rewrite Hlen, Nat.sub_diag.
  - apply Z.ltb_ge. lia.
  - replace (historyIndex st + 1 - 1) with (historyIndex st) by lia.
    rewrite lookup_app_l by lia. apply lookup_take_lt. lia.
  - lia.
Qed.

Lemma generate_then_undo_witness :
  currentImageSrc (handleUndo (perform (Sample.retouch "DDDD") Sample.edited))
  = currentImageSrc Sample.edited.
Proof.
  assert (Hwf : wf_state Sample.edited).
  { apply (bool_decide_unpack _). vm_compute. reflexivity. }
  assert (Hi : 0 <= historyIndex Sample.edited) by (vm_compute; discriminate).
  exact (proj1 (proj2 (proj2 (proj2 (proj2
    (generate_then_undo Sample.browser (ReplyParts (Some (Sample.part "DDDD")))
       "remove the dust" "먼지 제거" Sample.edited _ Hwf Hi eq_refl)))))).
Defined.

(** X5. A successful generation keeps every snapshot up to and including
    the one it started from; started from the last snapshot it loses
    nothing, and it never makes the history longer by more than one. *)
Theorem generate_keeps_the_past br reply prompt actionName st img :
  wf_state st -> 0 <= historyIndex st ->
  finalImageSrc br actionName reply = inr img ->
  let st' := handleGenerate br reply prompt actionName st in
  (forall i, (i <= Z.to_nat (historyIndex st))%nat ->
             history st' !! i = history st !! i)
  /\ (historyIndex st = Z.of_nat (length (history st)) - 1 ->
      history st' = history st ++ [img])
  /\ (length (history st') <= length (history st) + 1)%nat.
Proof.
  intros Hwf Hi Hf st'. subst st'.
  rewrite (handleGenerate_success _ _ _ _ _ _ Hwf Hi Hf).
  destruct Hwf as [[Hr _] _]. cbn [history].
  split; [|split].
  - intros i Hle. rewrite lookup_app_l by (rewrite length_take; lia).
    apply lookup_take_lt. lia.
  - intros Htail. by rewrite take_ge by lia.
  - rewrite length_app, length_take. cbn [length]. lia.
Qed.

Lemma generate_keeps_the_past_witness :
  history (perform (Sample.retouch "DDDD") Sample.edited)
  = history Sample.edited ++ ["data:image/png;base64,DDDD"%string].
Proof.
  assert (Hwf : wf_state Sample.edited).
  { apply (bool_decide_unpack _). vm_compute. reflexivity. }
  assert (Hi : 0 <= historyIndex Sample.edited) by (vm_compute; discriminate).
  exact (proj1 (proj2
    (generate_keeps_the_past Sample.browser (ReplyParts (Some (Sample.part "DDDD")))
       "remove the dust" "먼지 제거" Sample.edited _ Hwf Hi eq_refl))
    eq_refl).
Defined.

Lemma edit_keeps_original a st orig :
  history_inv st -> history st !! 0%nat = Some orig -> isEdit a = true ->
  history (perform a st) !! 0%nat = Some orig.
Proof.
  intros Hinv Ho Ha.
  destruct a as [|file ev|br reply prompt actionName| |]; try done; cbn [perform].
  - destruct (handleGenerate_cases br reply prompt actionName st)
      as [(-> & _)|(img & _ & Hi & -> & _)]; [done|].
    rewrite lookup_app_l by (rewrite length_take; lia).
    rewrite lookup_take_lt by lia. done.
  - by rewrite handleUndo_history.
  - by rewrite handleRedo_history.
Qed.

(** X6. Through any sequence of generations, undos and redos the
    snapshot at index 0 stays the one that was there at the start (the
    uploaded original), and an image stays loaded. *)
Theorem editing_keeps_the_original acts : forall st orig,
  history_inv st -> history st !! 0%nat = Some orig ->
  forallb isEdit acts = true ->
  history (run acts st) !! 0%nat = Some orig
  /\ history_inv (run acts st)
  /\ 0 <= historyIndex (run acts st).
Proof.
  induction acts as [|a acts IH]; intros st orig Hinv Ho Hacts.
  - cbn. split; [done|]. split; [done|].
    destruct Hinv as [Hr Hiff]. apply lookup_lt_Some in Ho.
    destruct (decide (historyIndex st = -1)) as [Hm|Hm]; [|lia].
    apply Hiff in Hm. lia.
  - cbn [forallb] in Hacts. apply andb_true_iff in Hacts as [Ha Hacts].
    cbn [run fold_left]. apply IH; [|by apply edit_keeps_original|done].
    by apply history_inv_perform.
Qed.

Lemma editing_keeps_the_original_witness :
  history (run [ActUndo; Sample.retouch "DDDD"; ActRedo; ActUndo] Sample.edited)
    !! 0%nat = Some Sample.snapA.
Proof.
  assert (Hinv : history_inv Sample.edited).
  { apply (bool_decide_unpack _). vm_compute. reflexivity. }
  exact (proj1 (editing_keeps_the_original
                  [ActUndo; Sample.retouch "DDDD"; ActRedo; ActUndo]
                  Sample.edited Sample.snapA Hinv eq_refl eq_refl)).
Defined.

Lemma undo_iter n : forall st,
  historyIndex st = Z.of_nat n ->
  historyIndex (Nat.iter n handleUndo st) = 0
  /\ history (Nat.iter n handleUndo st) = history st.
Proof.
  induction n as [|n IH]; intros st Hi; [done|].
  rewrite Nat.iter_succ_r.
  assert (Hu : historyIndex (handleUndo st) = Z.of_nat n
               /\ history (handleUndo st) = history st).
  { unfold handleUndo. destruct (Z.ltb_spec 0 (historyIndex st)); [|lia].
    cbn. split; [lia|done]. }
  destruct Hu as [Hui Huh]. destruct (IH _ Hui) as [-> ->]. done.
Qed.

(** X7. From a cursor at [n >= 0], [n] undos lead to cursor 0 without
    touching the snapshots; the image then displayed is the first
    snapshot and a further undo is refused. *)
Theorem undo_reaches_the_original st :
  0 <= historyIndex st ->
  let st0 := Nat.iter (Z.to_nat (historyIndex st)) handleUndo st in
  historyIndex st0 = 0
  /\ history st0 = history st
  /\ currentImageSrc st0 = history st !! 0%nat
  /\ isUndoable st0 = false
  /\ handleUndo st0 = st0.
Proof.
  intros Hi st0.
  destruct (undo_iter (Z.to_nat (historyIndex st)) st ltac:(lia)) as [H0 Hh].
  fold st0 in H0, Hh.
  unfold currentImageSrc, isUndoable, handleUndo, JSArray.get.
  by rewrite H0, Hh.
Qed.

Lemma undo_reaches_the_original_witness :
  currentImageSrc (handleUndo (handleUndo Sample.edited)) = Some Sample.snapA.
Proof.
  assert (Hi : 0 <= historyIndex Sample.edited) by (vm_compute; discriminate).
  exact (proj1 (proj2 (proj2 (undo_reaches_the_original Sample.edited Hi)))).
Defined.

(** X8. An upload either is accepted, which needs a file type starting
    with [image/] and a non-empty reading result and then replaces the
    whole session by that single image, or is rejected with an error
    message and leaves the history, the cursor and the remembered file
    untouched. *)
Theorem upload_replaces_or_leaves file ev st :
  let st' := processFile file ev st in
  (exists img,
     String.prefix "image/" (file_type file) = true
     /\ ev = ReaderLoad (Some img) /\ truthy img = true
     /\ st' = {| originalFile := Some file; history := [img];
                 historyIndex := 0; isLoading := isLoading st;
                 error := None |})
  \/ ((String.prefix "image/" (file_type file) = false
       \/ ev = ReaderError \/ ev = ReaderLoad None
       \/ ev = ReaderLoad (Some ""%string))
      /\ history st' = history st
      /\ historyIndex st' = historyIndex st
      /\ originalFile st' = originalFile st
      /\ isLoading st' = isLoading st
      /\ exists msg, error st' = Some msg).
Proof.
  cbn zeta. unfold processFile.
  destruct (String.prefix _ _) eqn:Hty; [|right; cbn; eauto 10].
  destruct ev as [[img|]|]; [|right; cbn; eauto 10..].
  destruct img as [|c img]; [right; cbn; eauto 10|].
  left. exists (String c img). by cbn.
Qed.

End SessionFacts.

(** * Properties of the request *)

Section RequestFacts.
Import Stdlib.Strings.Ascii.
Implicit Types (s m : string) (c : ascii).

Lemma split_nonempty c s : Request.split c s <> [].
Proof.
  destruct s as [|c' rest]; cbn; [done|].
  destruct (Ascii.eqb c' c); [done|]. by destruct (Request.split c rest).
Qed.

Lemma split_lacks c s : Request.lacks c s = true -> Request.split c s = [s].
Proof.
  induction s as [|c' rest IH]; cbn; [done|].
  intros [Hc Hrest]%andb_true_iff. apply negb_true_iff in Hc.
  by rewrite Hc, (IH Hrest).
Qed.

Lemma append_empty s : (EmptyString ++ s)%string = s.
Proof. reflexivity. Qed.

Lemma append_String c s t : (String c s ++ t)%string = String c (s ++ t).
Proof. reflexivity. Qed.

Lemma append_assoc3 s t u : ((s ++ t) ++ u)%string = (s ++ (t ++ u))%string.
Proof.
  induction s as [|c rest IH]; [done|]. by rewrite !append_String, IH.
Qed.

Lemma split_app c s t :
  Request.lacks c s = true ->
  Request.split c (s ++ String c t) = s :: Request.split c t.
Proof.
  induction s as [|c' rest IH].
  - intros _. rewrite append_empty. cbn [Request.split]. by rewrite Ascii.eqb_refl.
  - cbn [Request.lacks]. intros [Hc Hrest]%andb_true_iff. apply negb_true_iff in Hc.
    rewrite append_String. cbn [Request.split]. by rewrite Hc, (IH Hrest).
Qed.

Lemma lacks_app c s t :
  Request.lacks c (s ++ t) = Request.lacks c s && Request.lacks c t.
Proof.
  induction s as [|c' rest IH]; [done|].
  rewrite append_String. cbn [Request.lacks]. by rewrite IH, andb_assoc.
Qed.

Lemma plain_lacks_comma m : Request.plain m = true -> Request.lacks "," m = true.
Proof.
  induction m as [|c rest IH]; [done|]. cbn [Request.plain Request.lacks].
  rewrite !andb_true_iff. intros [[[Hc _] _] Hrest]. by rewrite Hc, IH.
Qed.

(** The lazy capture stops at the first semicolon after a plain text. *)
Lemma lazyToSemicolon_plain m t :
  Request.plain m = true ->
  Request.lazyToSemicolon (m ++ String ";" t) = Some m.
Proof.
  induction m as [|c rest IH]; [done|].
  cbn [Request.plain]. rewrite !andb_true_iff, !negb_true_iff.
  intros [[[_ Hsemi] Hlt] Hrest].
  rewrite append_String. cbn [Request.lazyToSemicolon]. rewrite Hsemi.
  assert (Hlt' : Request.lineTerminatorAt (String c (rest ++ String ";" t)) = false).
  { revert Hlt. unfold Request.lineTerminatorAt.
    destruct (Ascii.eqb c "010"), (Ascii.eqb c "013"), (Ascii.eqb c "226");
      cbn [orb andb]; try done.
    destruct rest as [|c1 [|c2 rest']]; rewrite ?append_String, ?append_empty.
    - intros _. by destruct t.
    - intros _. apply andb_false_r.
    - done. }
  by rewrite Hlt', (IH Hrest).
Qed.

Lemma lazyToSemicolon_lacks s :
  Request.lacks ";" s = true -> Request.lazyToSemicolon s = None.
Proof.
  induction s as [|c rest IH]; [done|]. cbn [Request.lacks Request.lazyToSemicolon].
  intros [Hc Hrest]%andb_true_iff. apply negb_true_iff in Hc. rewrite Hc.
  destruct (Request.lineTerminatorAt _); [done|]. by rewrite (IH Hrest).
Qed.

Lemma matchMime_lacks s :
  Request.lacks ":" s = true \/ Request.lacks ";" s = true ->
  Request.matchMime s = None.
Proof.
  induction s as [|c rest IH]; [done|]. cbn [Request.lacks Request.matchMime].
  rewrite !andb_true_iff, !negb_true_iff. intros [[Hc Hrest]|[Hc Hrest]].
  - rewrite Hc. apply IH. by left.
  - rewrite (IH (or_intror Hrest)), (lazyToSemicolon_lacks _ Hrest).
    by destruct (Ascii.eqb c ":").
Qed.

(** The first piece of a split holds no character the whole lacks. *)
Lemma split_head_lacks c sep s :
  Request.lacks c s = true ->
  Request.lacks c match Request.split sep s with h :: _ => h | [] => EmptyString end
  = true.
Proof.
  induction s as [|c' rest IH]; [done|]. cbn [Request.lacks Request.split].
  intros [Hc Hrest]%andb_true_iff. specialize (IH Hrest).
  destruct (Ascii.eqb c' sep); [done|].
  destruct (Request.split sep rest); cbn; by rewrite Hc.
Qed.

Lemma split_second_lacks s :
  Request.split "," s !! 1%nat = None <-> Request.lacks "," s = true.
Proof.
  induction s as [|c rest IH]; [done|]. cbn [Request.lacks Request.split].
  destruct (Ascii.eqb c ",") eqn:Hc; cbn [negb andb].
  - pose proof (split_nonempty "," rest).
    destruct (Request.split "," rest); [done|]. by split.
  - pose proof (split_nonempty "," rest).
    destruct (Request.split "," rest) as [|p ps]; [done|]. exact IH.
Qed.

(** X9. Taking apart a data URL of the form [data:MIME;PARAMS,PAYLOAD]
    gives back the MIME type and the payload, when the MIME type is not
    empty and holds no comma, semicolon or line terminator and neither
    the parameters nor the payload hold a comma. So after a successful
    edit that is not a background removal, the next request sends the
    model exactly the bytes and the MIME type it returned. *)
Theorem image_part_round_trip :
  (forall m params payload,
     Request.mimeOk m = true ->
     Request.lacks "," params = true -> Request.lacks "," payload = true ->
     Request.imagePart ("data:" ++ m ++ ";" ++ params ++ "," ++ payload)
     = {| Request.part_data := Some payload; Request.part_mimeType := m |})
  /\ (forall br part prompt actionName st,
        wf_state st -> 0 <= historyIndex st ->
        isBgRemoval actionName = false ->
        Request.mimeOk (inline_mimeType part) = true ->
        Request.lacks "," (inline_data part) = true ->
        Request.imagePart
          <$> currentImageSrc
                (handleGenerate br (ReplyParts (Some part)) prompt actionName st)
        = Some {| Request.part_data := Some (inline_data part);
                  Request.part_mimeType := inline_mimeType part |}).
Proof.
  assert (Hurl : forall m params payload,
     Request.mimeOk m = true ->
     Request.lacks "," params = true -> Request.lacks "," payload = true ->
     Request.imagePart ("data:" ++ m ++ ";" ++ params ++ "," ++ payload)
     = {| Request.part_data := Some payload; Request.part_mimeType := m |}).
  { intros m params payload [Hm Hplain]%andb_true_iff Hparams Hpayload.
    rewrite !append_String, !append_empty.
    replace (m ++ String ";" (params ++ String "," payload))%string
      with ((m ++ String ";" params) ++ String "," payload)%string
      by (by rewrite append_assoc3, append_String).
    unfold Request.imagePart.
    change (String "d" (String "a" (String "t" (String "a" (String ":"
              ((m ++ String ";" params) ++ String "," payload))))))%string
      with (("data:" ++ (m ++ String ";" params)) ++ String "," payload)%string.
    rewrite split_app.
    - rewrite (split_lacks _ _ Hpayload). cbn [lookup list_lookup].
      rewrite !append_String, append_empty. cbn [Request.matchMime Ascii.eqb Bool.eqb].
      cbn match. rewrite (lazyToSemicolon_plain _ _ Hplain). by rewrite Hm.
    - rewrite !lacks_app. cbn [Request.lacks]. rewrite andb_true_r.
      rewrite (plain_lacks_comma _ Hplain), Hparams. reflexivity. }
  split; [exact Hurl|].
  intros br part prompt actionName st Hwf Hi Hbg Hm Hd.
  assert (Hf : finalImageSrc br actionName (ReplyParts (Some part))
               = inr ("data:" ++ inline_mimeType part ++ ";base64,"
                        ++ inline_data part)%string).
  { unfold finalImageSrc. by rewrite Hbg. }
  rewrite (handleGenerate_success _ _ _ _ _ _ Hwf Hi Hf).
  destruct Hwf as [[Hr _] _].
  unfold currentImageSrc, JSArray.get. cbn [history historyIndex].
  destruct (Z.ltb_spec (historyIndex st + 1) 0); [lia|].
  rewrite lookup_app_r by (rewrite length_take; lia).
  rewrite length_take.
  replace (Z.to_nat (historyIndex st + 1)
           - Z.to_nat (historyIndex st + 1) `min` length (history st))%nat
    with 0%nat by lia.
  cbn [lookup list_lookup fmap option_fmap option_map]. f_equal.
  exact (Hurl (inline_mimeType part) "base64"%string (inline_data part) Hm eq_refl Hd).
Qed.

Lemma image_part_round_trip_witness :
  Request.imagePart "data:image/svg+xml;charset=utf-8;base64,PHN2Zz4="
  = {| Request.part_data := Some "PHN2Zz4="%string;
       Request.part_mimeType := "image/svg+xml" |}
  /\ Request.imagePart
       <$> currentImageSrc (perform (Sample.retouch "DDDD") Sample.edited)
     = Some {| Request.part_data := Some "DDDD"%string;
               Request.part_mimeType := "image/png" |}.
Proof.
  split.
  - exact (proj1 image_part_round_trip "image/svg+xml"%string
             "charset=utf-8;base64"%string "PHN2Zz4="%string
             eq_refl eq_refl eq_refl).
  - assert (Hwf : wf_state Sample.edited).
    { apply (bool_decide_unpack _). vm_compute. reflexivity. }
    assert (Hi : 0 <= historyIndex Sample.edited) by (vm_compute; discriminate).
    exact (proj2 image_part_round_trip Sample.browser (Sample.part "DDDD")
             "remove the dust"%string "먼지 제거"%string Sample.edited
             Hwf Hi eq_refl eq_refl eq_refl).
Defined.

(** X10. Whatever the current image is, the MIME type sent to the model
    is never empty: it falls back to [image/png], in particular when the
    text before the first comma holds no colon or no semicolon. The data
    sent is [undefined] exactly when the image holds no comma. *)
Theorem image_part_fallbacks s :
  truthy (Request.part_mimeType (Request.imagePart s)) = true
  /\ (Request.part_data (Request.imagePart s) = None
      <-> Request.lacks "," s = true)
  /\ (Request.lacks ":" s = true \/ Request.lacks ";" s = true ->
      Request.part_mimeType (Request.imagePart s) = "image/png"%string).
Proof.
  unfold Request.imagePart. cbn [Request.part_mimeType Request.part_data].
  split; [|split].
  - destruct (Request.matchMime _) as [m|]; [|done].
    by destruct (truthy m) eqn:Hm.
  - apply split_second_lacks.
  - intros Hs. rewrite matchMime_lacks; [done|].
    destruct Hs as [Hs|Hs]; [left|right]; by apply split_head_lacks.
Qed.

Lemma image_part_fallbacks_witness :
  Request.part_data (Request.imagePart "blob") = None
  /\ Request.part_mimeType (Request.imagePart "data:,") = "image/png"%string.
Proof.
  split.
  - apply (proj1 (proj2 (image_part_fallbacks "blob"))). reflexivity.
  - apply (proj2 (proj2 (image_part_fallbacks "data:,"))). right. reflexivity.
Defined.

End RequestFacts.

(** * Further properties of the chroma-key pass *)

Section PassFacts.
Variable cfg : ChromaKeyConfig.

Lemma ApplyChromaKey_app a : forall k b,
  length a = (4 * k)%nat ->
  ApplyChromaKey cfg (a ++ b) = ApplyChromaKey cfg a ++ ApplyChromaKey cfg b.
Proof.
  induction a as [a Hs|r g bl al rest IH] using pixel_ind; intros k b Hlen.
  - destruct a; [done|]. cbn in Hs, Hlen. lia.
  - destruct k as [|k]; [done|]. cbn in Hlen.
    cbn [ApplyChromaKey app]. rewrite (IH k); [done|lia].
Qed.

(** X11. The pass treats every pixel on its own: on two arrays put end
    to end, the first made of whole pixels, it gives the two results put
    end to end. *)
Theorem chroma_key_pixelwise a b k :
  length a = (4 * k)%nat ->
  keyPixels cfg (a ++ b) = keyPixels cfg a ++ keyPixels cfg b.
Proof. intros Hlen. rewrite !keyPixels_spec. by apply (ApplyChromaKey_app a k). Qed.

Lemma ApplyChromaKey_bytes data :
  Forall channel data ->
  Forall channel (ApplyChromaKey cfg data)
  /\ Forall2 Z.le (ApplyChromaKey cfg data) data.
Proof.
  induction data as [data Hs|r g b a rest IH] using pixel_ind; intros Hdata.
  - rewrite ApplyChromaKey_short by done. split; [done|].
    apply Forall2_same_length_lookup_2; [done|]. intros i x y Hx Hy.
    rewrite Hx in Hy. injection Hy as ->. lia.
  - cbn [ApplyChromaKey].
    inversion Hdata as [|? ? Hr Hd1]; subst.
    inversion Hd1 as [|? ? Hg Hd2]; subst.
    inversion Hd2 as [|? ? Hb Hd3]; subst.
    inversion Hd3 as [|? ? Ha Hd4]; subst.
    destruct (IH Hd4) as [IH1 IH2].
    assert (Ha' : channel (if isBackgroundPixel cfg r g b then 0 else a)
                  /\ (if isBackgroundPixel cfg r g b then 0 else a) <= a).
    { unfold channel in *. destruct (isBackgroundPixel cfg r g b); lia. }
    destruct Ha' as [Hc Hle].
    split.
    + repeat (apply Forall_cons; split; [done|]). exact IH1.
    + repeat (apply Forall2_cons; split; [lia|]). exact IH2.
Qed.

(** X12. On an array of bytes the pass returns an array of bytes, and no
    byte of the result is larger than the byte it replaces: a pixel is
    never made more opaque. *)
Theorem chroma_key_keeps_bytes (data : list Z) :
  Forall channel data ->
  Forall channel (keyPixels cfg data)
  /\ Forall2 Z.le (keyPixels cfg data) data.
Proof. rewrite keyPixels_spec. apply ApplyChromaKey_bytes. Qed.

Lemma ApplyChromaKey_cleared data :
  backgroundCleared cfg (ApplyChromaKey cfg data) = true.
Proof.
  induction data as [data Hs|r g b a rest IH] using pixel_ind.
  - rewrite ApplyChromaKey_short by done.
    by destruct data as [|? [|? [|? [|? ?]]]]; [..|cbn in Hs; lia].
  - cbn [ApplyChromaKey backgroundCleared]. rewrite IH, andb_true_r.
    by destruct (isBackgroundPixel cfg r g b).
Qed.

Lemma ApplyChromaKey_fixed data :
  ApplyChromaKey cfg data = data <-> backgroundCleared cfg data = true.
Proof.
  induction data as [data Hs|r g b a rest IH] using pixel_ind.
  - rewrite ApplyChromaKey_short by done.
    by destruct data as [|? [|? [|? [|? ?]]]]; [..|cbn in Hs; lia].
  - cbn [ApplyChromaKey backgroundCleared]. rewrite andb_true_iff, <- IH.
    destruct (isBackgroundPixel cfg r g b); cbn [negb orb].
    + rewrite Z.eqb_eq. split.
      * intros [= <- ->]. done.
      * intros [-> ->]. done.
    + split; [by intros [= ->]|by intros [_ ->]].
Qed.

(** X13. In the result of the pass every pixel classified as background
    has alpha 0, and the pass leaves an array unchanged exactly when that
    already holds of the array. *)
Theorem chroma_key_fixed_points (data : list Z) :
  backgroundCleared cfg (keyPixels cfg data) = true
  /\ (keyPixels cfg data = data <-> backgroundCleared cfg data = true).
Proof.
  rewrite keyPixels_spec. split; [apply ApplyChromaKey_cleared|apply ApplyChromaKey_fixed].
Qed.

End PassFacts.

Lemma chroma_key_pixelwise_witness :
  keyPixels magentaKey ([255; 0; 255; 255] ++ [10; 20; 30; 255])
  = keyPixels magentaKey [255; 0; 255; 255] ++ keyPixels magentaKey [10; 20; 30; 255].
Proof.
  exact (chroma_key_pixelwise magentaKey [255; 0; 255; 255] [10; 20; 30; 255]
           1%nat eq_refl).
Defined.

Lemma chroma_key_keeps_bytes_witness :
  Forall channel (keyPixels magentaKey (img_data Sample.twoPixels)).
Proof.
  assert (H : Forall channel (img_data Sample.twoPixels)).
  { repeat constructor; unfold channel; lia. }
  exact (proj1 (chroma_key_keeps_bytes magentaKey _ H)).
Defined.

Lemma chroma_key_fixed_points_witness :
  keyPixels magentaKey (img_data Demo.keyedTwoPixels) = img_data Demo.keyedTwoPixels.
Proof.
  apply (proj2 (chroma_key_fixed_points magentaKey _)). vm_compute. reflexivity.
Defined.

(** * Further properties of the colour conversion *)

Section ExtremeFacts.
Local Open Scope float_scope.

Lemma forallb2_In {A} (f : A -> A -> bool) (l : list A) :
  forallb2 f l = true -> forall x y, In x l -> In y l -> f x y = true.
Proof.
  unfold forallb2. intros Hall x y Hx Hy.
  rewrite forallb_forall in Hall. specialize (Hall x Hx). cbn beta in Hall.
  rewrite forallb_forall in Hall. exact (Hall y Hy).
Qed.

Lemma order_table : forallb2 orderCheck bytes = true.
Proof. vm_compute. reflexivity. Qed.

Lemma sign_table : forallb signCheck bytes = true.
Proof. vm_compute. reflexivity. Qed.

Lemma range_table : forallb2 rangeCheck bytes = true.
Proof. vm_compute. reflexivity. Qed.

Lemma magenta_gate_table : forallb2 magentaGateCheck bytes = true.
Proof. vm_compute. reflexivity. Qed.

Lemma unit_order i j :
  channel i -> channel j ->
  (unit_of_byte i <? unit_of_byte j) = (i <? j)%Z
  /\ (unit_of_byte i =? unit_of_byte j) = (i =? j)%Z.
Proof.
  intros Hi%channel_in_bytes Hj%channel_in_bytes.
  pose proof (forallb2_In orderCheck bytes order_table i j Hi Hj) as H.
  unfold orderCheck in H. apply andb_true_iff in H as [H1 H2].
  split; by apply Bool.eqb_prop.
Qed.

Lemma unit_sign i : channel i -> get_sign (unit_of_byte i) = false.
Proof.
  intros Hi%channel_in_bytes.
  pose proof sign_table as Hall. rewrite forallb_forall in Hall.
  apply negb_true_iff, (Hall i Hi).
Qed.

Lemma max2_unit i j :
  channel i -> channel j ->
  JS.max2 (unit_of_byte i) (unit_of_byte j) = unit_of_byte (Z.max i j).
Proof.
  intros Hi Hj. unfold JS.max2.
  rewrite (unit_not_nan i Hi), (unit_not_nan j Hj). cbn [orb].
  rewrite (proj1 (unit_order i j Hi Hj)), (proj1 (unit_order j i Hj Hi)).
  rewrite (unit_sign i Hi).
  destruct (Z.ltb_spec i j); [by rewrite Z.max_r by lia|].
  destruct (Z.ltb_spec j i); by rewrite Z.max_l by lia.
Qed.

Lemma min2_unit i j :
  channel i -> channel j ->
  JS.min2 (unit_of_byte i) (unit_of_byte j) = unit_of_byte (Z.min i j).
Proof.
  intros Hi Hj. unfold JS.min2.
  rewrite (unit_not_nan i Hi), (unit_not_nan j Hj). cbn [orb].
  rewrite (proj1 (unit_order i j Hi Hj)), (proj1 (unit_order j i Hj Hi)).
  rewrite (unit_sign i Hi).
  destruct (Z.ltb_spec i j); [by rewrite Z.min_l by lia|].
  destruct (Z.ltb_spec j i); [by rewrite Z.min_r by lia|].
  replace j with i by lia. by rewrite Z.min_id.
Qed.

Lemma extremes_channel r g b :
  channel r -> channel g -> channel b ->
  channel (maxByte r g b) /\ channel (minByte r g b)
  /\ (minByte r g b <= maxByte r g b)%Z.
Proof. unfold channel, maxByte, minByte. lia. Qed.

(** The maximum and the minimum of the scaled channels are the scaled
    largest and smallest byte. *)
Lemma Math_extremes_unit r g b :
  channel r -> channel g -> channel b ->
  JS.Math_max (unit_of_byte r) (unit_of_byte g) (unit_of_byte b)
  = unit_of_byte (maxByte r g b)
  /\ JS.Math_min (unit_of_byte r) (unit_of_byte g) (unit_of_byte b)
     = unit_of_byte (minByte r g b).
Proof.
  intros Hr Hg Hb. unfold JS.Math_max, JS.Math_min, maxByte, minByte.
  rewrite (max2_unit r g Hr Hg), (min2_unit r g Hr Hg).
  rewrite max2_unit, min2_unit; [done|unfold channel in *; lia..].
Qed.

(** Saturation and lightness of a pixel only depend on its largest and
    its smallest byte. *)
Lemma pixelHsl_extremes r g b :
  channel r -> channel g -> channel b ->
  let M := maxByte r g b in
  let m := minByte r g b in
  (pixelHsl r g b).2 = lightnessOf (unit_of_byte M) (unit_of_byte m)
  /\ (pixelHsl r g b).1.2
     = (if (M =? m)%Z then 0
        else saturationOf (unit_of_byte M) (unit_of_byte m))
  /\ ((M =? m)%Z = true -> (pixelHsl r g b).1.1 = 0).
Proof.
  intros Hr Hg Hb M m.
  destruct (extremes_channel r g b Hr Hg Hb) as (HM & Hm & _).
  destruct (Math_extremes_unit r g b Hr Hg Hb) as [Hmax Hmin].
  unfold pixelHsl, rgbToHsl. cbn zeta.
  fold (unit_of_byte r) (unit_of_byte g) (unit_of_byte b).
  rewrite Hmax, Hmin. fold M m.
  rewrite (proj2 (unit_order M m HM Hm)).
  by destruct (M =? m)%Z.
Qed.

Lemma range_facts M m :
  channel M -> channel m -> (m <= M)%Z ->
  let l := lightnessOf (unit_of_byte M) (unit_of_byte m) in
  let s := saturationOf (unit_of_byte M) (unit_of_byte m) in
  (0 <=? l) = true /\ (l <=? 1) = true
  /\ (0.5 <? l) = (255 <? M + m)%Z
  /\ (M = m -> (l =? unit_of_byte M) = true)
  /\ ((m < M)%Z -> (0 <? s) = true /\ (0 <=? s) = true /\ (s <=? 1) = true).
Proof.
  intros HM%channel_in_bytes Hm%channel_in_bytes Hle.
  pose proof (forallb2_In rangeCheck bytes range_table M m HM Hm) as H.
  unfold rangeCheck in H. cbn zeta in *.
  destruct (Z.leb_spec m M); [|lia]. cbn [negb orb] in H.
  rewrite !andb_true_iff in H. destruct H as [[[[Hlo Hhi] Hhalf] Hgrey] Hsat].
  split; [done|]. split; [done|]. split; [by apply Bool.eqb_prop|]. split.
  - intros ->. rewrite Z.eqb_refl in Hgrey. done.
  - intros Hlt. destruct (Z.ltb_spec m M); [|lia].
    cbn [negb orb] in Hsat. rewrite !andb_true_iff in Hsat. tauto.
Qed.

(** X15. For every pixel the saturation and the lightness that
    [rgbToHsl] returns lie between 0 and 1; both only depend on the
    largest and the smallest of the three bytes, and the lightness
    exceeds 0.5 exactly when these two bytes add up to more than 255. *)
Theorem saturation_lightness_ranges r g b :
  channel r -> channel g -> channel b ->
  let '(h, s, l) := pixelHsl r g b in
  (0 <=? s) = true /\ (s <=? 1) = true
  /\ (0 <=? l) = true /\ (l <=? 1) = true
  /\ l = lightnessOf (unit_of_byte (maxByte r g b)) (unit_of_byte (minByte r g b))
  /\ (0.5 <? l) = (255 <? maxByte r g b + minByte r g b)%Z.
Proof.
  intros Hr Hg Hb.
  destruct (extremes_channel r g b Hr Hg Hb) as (HM & Hm & Hle).
  destruct (pixelHsl_extremes r g b Hr Hg Hb) as (Hl & Hs & _).
  destruct (range_facts _ _ HM Hm Hle) as (Hl0 & Hl1 & Hhalf & _ & Hsat).
  destruct (pixelHsl r g b) as [[h s] l]. cbn [fst snd] in Hl, Hs. subst l s.
  destruct (Z.eqb_spec (maxByte r g b) (minByte r g b)) as [Heq|Hne].
  - by repeat split.
  - destruct Hsat as (_ & Hs0 & Hs1); [lia|]. by repeat split.
Qed.

Lemma saturation_lightness_ranges_witness :
  ((pixelHsl 200 120 40).1.2 <=? 1) = true /\ (0.5 <? (pixelHsl 200 120 40).2) = false.
Proof.
  assert (Hr : channel 200) by (unfold channel; lia).
  assert (Hg : channel 120) by (unfold channel; lia).
  assert (Hb : channel 40) by (unfold channel; lia).
  pose proof (saturation_lightness_ranges 200 120 40 Hr Hg Hb) as H.
  destruct (pixelHsl 200 120 40) as [[h s] l].
  destruct H as (_ & Hs1 & _ & _ & _ & Hhalf).
  split; [exact Hs1|exact Hhalf].
Defined.

Lemma grey_extremes r g b :
  (r = g /\ g = b)%Z <-> maxByte r g b = minByte r g b.
Proof. unfold maxByte, minByte. lia. Qed.

(** X16. A pixel is achromatic exactly when its three bytes are equal:
    a grey has hue 0, saturation 0 and its scaled byte as lightness, and
    every other pixel has a positive saturation. *)
Theorem achromatic_iff_grey r g b :
  channel r -> channel g -> channel b ->
  let '(h, s, l) := pixelHsl r g b in
  ((r = g /\ g = b)%Z -> h = 0 /\ s = 0 /\ (l =? unit_of_byte r) = true)
  /\ (~ (r = g /\ g = b)%Z -> (0 <? s) = true).
Proof.
  intros Hr Hg Hb.
  destruct (extremes_channel r g b Hr Hg Hb) as (HM & Hm & Hle).
  destruct (pixelHsl_extremes r g b Hr Hg Hb) as (Hl & Hs & Hh).
  destruct (range_facts _ _ HM Hm Hle) as (_ & _ & _ & Hgrey & Hsat).
  destruct (pixelHsl r g b) as [[h s] l]. cbn [fst snd] in Hl, Hs, Hh. subst l s.
  pose proof (grey_extremes r g b) as Hiff.
  destruct (Z.eqb_spec (maxByte r g b) (minByte r g b)) as [Heq|Hne].
  - split; [|tauto]. intros [-> ->]. split; [by apply Hh|]. split; [done|].
    rewrite <- Heq in Hgrey |- *.
    replace (maxByte b b b) with b in * by (unfold maxByte; lia).
    by apply Hgrey.
  - split; [tauto|]. intros _. apply Hsat. lia.
Qed.

Lemma achromatic_iff_grey_witness :
  (pixelHsl 128 128 128).1.2 = 0 /\ (0 <? (pixelHsl 255 3 24).1.2) = true.
Proof.
  assert (H128 : channel 128) by (unfold channel; lia).
  assert (H255 : channel 255) by (unfold channel; lia).
  assert (H3 : channel 3) by (unfold channel; lia).
  assert (H24 : channel 24) by (unfold channel; lia).
  split.
  - pose proof (achromatic_iff_grey 128 128 128 H128 H128 H128) as H.
    destruct (pixelHsl 128 128 128) as [[h s] l].
    exact (proj1 (proj2 (proj1 H (conj eq_refl eq_refl)))).
  - pose proof (achromatic_iff_grey 255 3 24 H255 H3 H24) as H.
    destruct (pixelHsl 255 3 24) as [[h s] l].
    apply (proj2 H). intros [Habs _]. discriminate Habs.
Defined.

(** X17. A grey pixel, black and white included, is never classified as
    background by a key whose saturation floor is not met by 0, so never
    by the magenta key; the pass leaves such a pixel as it is. *)
Theorem grey_never_keyed :
  (forall cfg v, channel v ->
     (minSaturation cfg <=? 0) = false -> isBackgroundPixel cfg v v v = false)
  /\ (forall v a, channel v ->
        isBackgroundPixel magentaKey v v v = false
        /\ keyPixels magentaKey [v; v; v; a] = [v; v; v; a]).
Proof.
  assert (Hgen : forall cfg v, channel v ->
     (minSaturation cfg <=? 0) = false -> isBackgroundPixel cfg v v v = false).
  { intros cfg v Hv Hfloor.
    destruct (pixelHsl_extremes v v v Hv Hv Hv) as (_ & Hs & _).
    replace (maxByte v v v) with v in Hs by (unfold maxByte; lia).
    replace (minByte v v v) with v in Hs by (unfold minByte; lia).
    rewrite Z.eqb_refl in Hs.
    unfold isBackgroundPixel, isBackground. fold (pixelHsl v v v).
    destruct (pixelHsl v v v) as [[h s] l]. cbn [fst snd] in Hs. subst s.
    unfold matchesKey. rewrite Hfloor. by rewrite andb_false_r. }
  split; [exact Hgen|].
  intros v a Hv.
  assert (Hm : isBackgroundPixel magentaKey v v v = false) by by apply Hgen.
  split; [done|]. rewrite keyPixels_spec. cbn [ApplyChromaKey]. by rewrite Hm.
Qed.

Lemma grey_never_keyed_witness :
  keyPixels magentaKey [255; 255; 255; 200]%Z = [255; 255; 255; 200]%Z.
Proof.
  assert (Hv : channel 255) by (unfold channel; lia).
  exact (proj2 (proj2 grey_never_keyed 255%Z 200%Z Hv)).
Defined.

(** X18. The magenta key only clears a pixel that is coloured and neither
    too dark nor too light nor too pale, in terms of its largest byte [M]
    and smallest byte [m]: [m < M], [77 <= M + m <= 484], and
    [5 * m <= 3 * M] when [M + m <= 255], [5 * M - 3 * m >= 510] when
    not. *)
Theorem magenta_key_gate r g b :
  channel r -> channel g -> channel b ->
  isBackgroundPixel magentaKey r g b = true ->
  let M := maxByte r g b in
  let m := minByte r g b in
  (m < M)%Z /\ (77 <= M + m <= 484)%Z
  /\ (if (255 <? M + m)%Z then (510 <= 5 * M - 3 * m)%Z else (5 * m <= 3 * M)%Z).
Proof.
  intros Hr Hg Hb Hkey M m.
  destruct (extremes_channel r g b Hr Hg Hb) as (HM & Hm & Hle). fold M m in HM, Hm, Hle.
  destruct (pixelHsl_extremes r g b Hr Hg Hb) as (Hl & Hs & _). fold M m in Hl, Hs.
  pose proof (forallb2_In magentaGateCheck bytes magenta_gate_table M m
                (channel_in_bytes M HM) (channel_in_bytes m Hm)) as Htab.
  unfold magentaGateCheck in Htab. cbn zeta in Htab.
  destruct (Z.leb_spec m M); [|lia]. cbn [negb orb] in Htab.
  apply andb_true_iff in Htab as [Hlight Hsat]. apply Bool.eqb_prop in Hlight.
  unfold isBackgroundPixel, isBackground in Hkey. fold (pixelHsl r g b) in Hkey.
  destruct (pixelHsl r g b) as [[h s] l]. cbn [fst snd] in Hl, Hs. subst l s.
  unfold matchesKey in Hkey. rewrite !andb_true_iff in Hkey.
  destruct Hkey as [[[_ Hks] Hkl0] Hkl1].
  rewrite Hkl0, Hkl1 in Hlight. cbn [andb] in Hlight. symmetry in Hlight.
  apply andb_true_iff in Hlight as [H77%Z.leb_le H484%Z.leb_le].
  destruct (Z.eqb_spec M m) as [Heq|Hne].
  - exfalso. revert Hks. by vm_compute.
  - destruct (Z.ltb_spec m M); [|lia]. cbn [negb orb] in Hsat.
    apply andb_true_iff in Hsat as [Hnec _]. rewrite Hks in Hnec. cbn [implb] in Hnec.
    unfold exactSaturationFloor in Hnec.
    split; [done|]. split; [done|].
    destruct (255 <? M + m)%Z; by apply Z.leb_le.
Qed.

Lemma magenta_key_gate_witness :
  (minByte 255 0 255 < maxByte 255 0 255)%Z
  /\ (77 <= maxByte 255 0 255 + minByte 255 0 255 <= 484)%Z.
Proof.
  assert (H255 : channel 255) by (unfold channel; lia).
  assert (H0 : channel 0) by (unfold channel; lia).
  pose proof (magenta_key_gate 255 0 255 H255 H0 H255 eq_refl) as H.
  cbn zeta in H. destruct H as (H1 & H2 & _). split; [exact H1|exact H2].
Defined.

Lemma degree_in_degrees h : (0 <= h < 360)%Z -> In h degrees.
Proof.
  intros Hh. unfold degrees. apply in_map_iff. exists (Z.to_nat h).
  split; [lia|]. apply in_seq. lia.
Qed.

Lemma arc_table : forallb2 arcCheck degrees = true.
Proof. vm_compute. reflexivity. Qed.

Lemma magenta_window_table : forallb magentaWindowCheck degrees = true.
Proof. vm_compute. reflexivity. Qed.

(** X19. On whole-degree hues the hue distance is the length of the
    shorter arc between the hue and the reference, whatever side of the
    0/360 seam they lie on; for the magenta key the hues within
    tolerance are exactly 275 to 325, the range the source comment
    names. *)
Theorem hue_distance_whole_degrees :
  (forall cfg h ref,
     (0 <= h < 360)%Z -> (0 <= ref < 360)%Z ->
     referenceHue cfg = JS.number_of_Z ref ->
     (hueDistance cfg (JS.number_of_Z h) =? JS.number_of_Z (arc h ref)) = true)
  /\ (forall h, (0 <= h < 360)%Z ->
        (hueDistance magentaKey (JS.number_of_Z h) <=? hueTolerance magentaKey) = true
        <-> (275 <= h <= 325)%Z).
Proof.
  split.
  - intros cfg h ref Hh%degree_in_degrees Href%degree_in_degrees Hcfg.
    pose proof (forallb2_In arcCheck degrees arc_table h ref Hh Href) as H.
    unfold arcCheck, hueDistance in *. cbn [referenceHue keyAt] in H.
    by rewrite Hcfg.
  - intros h Hh%degree_in_degrees.
    pose proof magenta_window_table as Hall. rewrite forallb_forall in Hall.
    specialize (Hall h Hh). unfold magentaWindowCheck in Hall.
    apply Bool.eqb_prop in Hall. rewrite Hall, andb_true_iff, !Z.leb_le. tauto.
Qed.

Lemma hue_distance_whole_degrees_witness :
  (hueDistance Sample.redKey (JS.number_of_Z 355) =? 10) = true
  /\ (hueDistance magentaKey (JS.number_of_Z 274) <=? hueTolerance magentaKey) = false.
Proof.
  split.
  - exact (proj1 hue_distance_whole_degrees Sample.redKey 355%Z 5%Z
             ltac:(lia) ltac:(lia) eq_refl).
  - destruct (hueDistance magentaKey (JS.number_of_Z 274) <=? hueTolerance magentaKey)
      eqn:Hd; [|reflexivity].
    apply (proj2 hue_distance_whole_degrees 274%Z ltac:(lia)) in Hd. lia.
Defined.

End ExtremeFacts.
